(** * Text-to-table formatting and webhook handling of the LINE image bot

    A shallow embedding of [app.py] and [image_to_text.py].  Python strings
    are lists of Unicode code points, the pieces of the Python runtime the
    program calls ([str.split], [str.strip], [re.split]) are embedded as
    functions, and the three external services (chat platform, vision API,
    spreadsheet API) are an oracle whose answers may depend on everything
    that happened before. *)

From Stdlib Require Import String Ascii List NArith Bool Arith Lia.
Import ListNotations.

(** ** Python strings *)

Module Py.

Definition char := N.
Definition str := list char.

Definition TAB : char := 9%N.
Definition NL : char := 10%N.

(** [Py_UNICODE_ISSPACE]: the predicate behind [str.strip], [str.isspace]
    and the [\s] class of [re] on [str] patterns. *)
Definition is_space (c : char) : bool :=
  ((0x09 <=? c) && (c <=? 0x0D) || (0x1C <=? c) && (c <=? 0x20)
   || (c =? 0x85) || (c =? 0xA0) || (c =? 0x1680)
   || (0x2000 <=? c) && (c <=? 0x200A)
   || (c =? 0x2028) || (c =? 0x2029) || (c =? 0x202F) || (c =? 0x205F)
   || (c =? 0x3000))%N.

(** Truth value of a sequence: [if xs:]. *)
Definition truthy {A} (xs : list A) : bool :=
  match xs with [] => false | _ :: _ => true end.

(** [s.lstrip()], [s.rstrip()], [s.strip()]. *)
Fixpoint lstrip (s : str) : str :=
  match s with
  | [] => []
  | c :: t => if is_space c then lstrip t else s
  end.

Definition rstrip (s : str) : str := rev (lstrip (rev s)).

Definition strip (s : str) : str := rstrip (lstrip s).

(** [s.split(sep)] for a one-character separator: the pieces between the
    occurrences of [sep]; never an empty list. *)
Fixpoint split_char (sep : char) (s : str) : list str :=
  match s with
  | [] => [[]]
  | c :: t =>
      if (c =? sep)%N then [] :: split_char sep t
      else match split_char sep t with
           | h :: r => (c :: h) :: r
           | [] => [[c]]
           end
  end.

(** *** String literals

    Source literals are written as UTF-8 byte strings and decoded to code
    points. *)
Fixpoint utf8_go (bs : list N) (need : nat) (acc : N) : str :=
  match bs with
  | [] => []
  | b :: t =>
      match need with
      | S k =>
          let acc' := (acc * 64 + b mod 64)%N in
          match k with
          | O => acc' :: utf8_go t 0 0%N
          | S _ => utf8_go t k acc'
          end
      | O =>
          if (b <? 128)%N then b :: utf8_go t 0 0%N
          else if (b <? 224)%N then utf8_go t 1 (b mod 32)%N
          else if (b <? 240)%N then utf8_go t 2 (b mod 16)%N
          else utf8_go t 3 (b mod 8)%N
      end
  end.

Definition lit (s : string) : str :=
  utf8_go (map N_of_ascii (list_ascii_of_string s)) 0 0%N.

(** [str(n)] for a non-negative integer. *)
Fixpoint digits_go (fuel : nat) (n : N) (acc : str) : str :=
  match fuel with
  | O => acc
  | S f =>
      let acc' := (48 + n mod 10)%N :: acc in
      if (n <? 10)%N then acc' else digits_go f (n / 10)%N acc'
  end.

Definition str_of_N (n : N) : str := digits_go (S (N.to_nat (N.log2 n))) n [].

(** *** The fragment of [re] used by the program *)

(** One-character items: a literal character, or the class [\s]. *)
Inductive item :=
| Chr (c : char)
| Space.

Inductive regex :=
| One (i : item)
| Alt (r1 r2 : regex)           (* r1|r2, left alternative first *)
| AtLeast (n : nat) (i : item). (* i{n,}, greedy *)

Definition item_matches (i : item) (c : char) : bool :=
  match i with
  | Chr d => (c =? d)%N
  | Space => is_space c
  end.

(** Number of leading characters of [s] that match [i]. *)
Fixpoint run_length (i : item) (s : str) : nat :=
  match s with
  | [] => 0
  | c :: t => if item_matches i c then S (run_length i t) else 0
  end.

(** [re_match r s]: the length of the match the backtracking engine
    reports for [r] at the start of [s].  Alternatives are tried left to
    right and a greedy repetition takes the whole run. *)
Fixpoint re_match (r : regex) (s : str) : option nat :=
  match r with
  | One i =>
      match s with
      | c :: _ => if item_matches i c then Some 1 else None
      | [] => None
      end
  | Alt r1 r2 =>
      match re_match r1 s with
      | Some n => Some n
      | None => re_match r2 s
      end
  | AtLeast n i =>
      let k := run_length i s in
      if n <=? k then Some k else None
  end.

(** [re.search]: leftmost position with a match, and the match length. *)
Fixpoint re_search (r : regex) (s : str) : option (nat * nat) :=
  match re_match r s with
  | Some n => Some (0, n)
  | None =>
      match s with
      | [] => None
      | _ :: t =>
          match re_search r t with
          | Some (i, n) => Some (S i, n)
          | None => None
          end
      end
  end.

(** [re.split(r, s)] for a pattern without groups whose matches are never
    empty: the text before each successive match, then the text after the
    last one.  [fuel] bounds the number of matches. *)
Fixpoint re_split_from (fuel : nat) (r : regex) (s : str) : list str :=
  match fuel with
  | O => [s]
  | S f =>
      match re_search r s with
      | None => [s]
      | Some (i, n) => firstn i s :: re_split_from f r (skipn (i + n) s)
      end
  end.

Definition re_split (r : regex) (s : str) : list str :=
  re_split_from (S (length s)) r s.

(** *** Values and exceptions *)

Inductive pyval :=
| VNone
| VInt (n : N)
| VStr (s : str).

Inductive exn_class :=
| AttributeError
| TypeError
| KeyError
| UnicodeEncodeError
| InvalidSignatureError
| LineBotApiError
| OSError
| HttpError
| HTTPException (status : nat)   (* what Flask's abort(status) raises *)
| OtherError.

Record exn := Exn { exn_class_of : exn_class; exn_msg : str }.

(** [str(e)] *)
Definition str_of_exn (e : exn) : str := exn_msg e.

Inductive except (A : Type) :=
| Ok (a : A)
| Raise (e : exn).

Arguments Ok {A} a.
Arguments Raise {A} e.

(** *** What a text stream cannot encode

    [sys.stdout] is taken as a UTF-8 stream with the strict error handler,
    the default outside the C locale: writing a string that holds a
    surrogate code point raises [UnicodeEncodeError], and nothing of the
    string is written. *)
Definition is_surrogate (c : char) : bool :=
  ((0xD800 <=? c) && (c <=? 0xDFFF))%N.

Definition has_surrogate (s : str) : bool := existsb is_surrogate s.

Definition hex_digit (n : N) : char :=
  if (n <? 10)%N then (48 + n)%N else (87 + n)%N.

(** The four hexadecimal digits of ['\uXXXX']. *)
Definition hex4 (c : char) : str :=
  [hex_digit ((c / 4096) mod 16); hex_digit ((c / 256) mod 16);
   hex_digit ((c / 16) mod 16); hex_digit (c mod 16)]%N.

Fixpoint surrogates_in_front (s : str) : nat :=
  match s with
  | [] => 0
  | c :: t => if is_surrogate c then S (surrogates_in_front t) else 0
  end.

(** Position and first character of the first run of surrogates, and the
    length of the run. *)
Fixpoint first_surrogates (pos : nat) (s : str) : option (nat * char * nat) :=
  match s with
  | [] => None
  | c :: t =>
      if is_surrogate c then Some (pos, c, S (surrogates_in_front t))
      else first_surrogates (S pos) t
  end.

(** [str(e)] of the error the UTF-8 codec raises on [s]. *)
Definition encode_error_message (s : str) : str :=
  match first_surrogates 0 s with
  | None => []
  | Some (pos, c, 1) =>
      lit "'utf-8' codec can't encode character '\u" ++ hex4 c
      ++ lit "' in position " ++ str_of_N (N.of_nat pos)
      ++ lit ": surrogates not allowed"
  | Some (pos, _, n) =>
      lit "'utf-8' codec can't encode characters in position "
      ++ str_of_N (N.of_nat pos) ++ lit "-" ++ str_of_N (N.of_nat (pos + n - 1))
      ++ lit ": surrogates not allowed"
  end.

Definition unicode_encode_error (s : str) : exn :=
  Exn UnicodeEncodeError (encode_error_message s).

(** [v.split(sep)]: only [str] has the method among the modelled values. *)
Definition method_split (v : pyval) (sep : char) : except (list str) :=
  match v with
  | VStr s => Ok (split_char sep s)
  | VNone =>
      Raise (Exn AttributeError (lit "'NoneType' object has no attribute 'split'"))
  | VInt _ =>
      Raise (Exn AttributeError (lit "'int' object has no attribute 'split'"))
  end.

End Py.

Import Py.

(** ** Effects

    Everything the program does to the outside is recorded, in order, in a
    history of events.  A computation takes the history so far and returns
    a value or a raised exception together with the extended history. *)

Inductive event :=
| EvPrint (s : str)                                (* print(...) *)
| EvLog (s : str)                                  (* app.logger.info(...) *)
| EvGetMessageContent (message_id : str)           (* line_bot_api.get_message_content *)
| EvSaveImage (path : str) (chunks : list (list N)) (* open(path, 'wb') and the writes *)
| EvVision (path : str)                            (* Image.open + model.generate_content *)
| EvSheetsAuth                                     (* credentials + build('sheets', 'v4') *)
| EvAppend (spreadsheet_id range_name : str) (values : list (list pyval))
| EvReply (reply_token text : str).                (* line_bot_api.reply_message *)

Definition history := list event.

Definition M (A : Type) : Type := history -> except A * history.

Definition ret {A} (a : A) : M A := fun h => (Ok a, h).

Definition bind {A B} (m : M A) (k : A -> M B) : M B :=
  fun h =>
    match m h with
    | (Ok a, h') => k a h'
    | (Raise e, h') => (Raise e, h')
    end.

Definition raise {A} (e : exn) : M A := fun h => (Raise e, h).

Definition lift {A} (r : except A) : M A := fun h => (r, h).

(** [try: m  except Exception as e: handler e] *)
Definition try_except {A} (m : M A) (handler : exn -> M A) : M A :=
  fun h =>
    match m h with
    | (Ok a, h') => (Ok a, h')
    | (Raise e, h') => handler e h'
    end.

(** [try: m  except cls: handler] for one exception class: anything else
    propagates. *)
Definition try_except_only {A} (catches : exn_class -> bool) (m : M A)
    (handler : M A) : M A :=
  fun h =>
    match m h with
    | (Ok a, h') => (Ok a, h')
    | (Raise e, h') =>
        if catches (exn_class_of e) then handler h' else (Raise e, h')
    end.

Definition emit (e : event) : M unit := fun h => (Ok tt, h ++ [e]).

(** An external call: the event is recorded, then the oracle, which sees
    the history before the call, decides how the call ends. *)
Definition call {A} (e : event) (answer : history -> except A) : M A :=
  fun h => (answer h, h ++ [e]).

Declare Scope py_scope.
Delimit Scope py_scope with py.
Notation "x <- m ;; k" := (bind m (fun x => k))
  (at level 61, m at next level, right associativity) : py_scope.
Notation "m ;; k" := (bind m (fun _ => k))
  (at level 61, right associativity) : py_scope.
Local Open Scope py_scope.

(** Reading something the environment decides ([uuid.uuid4()],
    [datetime.datetime.now()]): no event, no exception. *)
Definition ask {A} (answer : history -> A) : M A :=
  fun h => (Ok (answer h), h).

(** [print(s)]: the line is written, or the stream refuses the string and
    nothing is written. *)
Definition print (s : str) : M unit :=
  fun h =>
    if has_surrogate s then (Raise (unicode_encode_error s), h)
    else (Ok tt, h ++ [EvPrint s]).

(** ** The external services *)

Record message_event := MessageEvent {
  message_id : str;
  reply_token : str
}.

(** Events of a webhook payload: image messages have a handler registered
    ([@handler.add(MessageEvent, message=ImageMessage)]), nothing else
    has, and no default handler is set. *)
Inductive webhook_event :=
| ImageMessageEvent (ev : message_event)
| OtherEvent.

(** What [.execute()] of the append request returns, as far as the program
    looks at it: [result.get('updates')], and inside it
    [.get('updatedCells')]. *)
Definition append_result := option (option N).

Record world := World {
  getenv_SPREADSHEET_ID : option str;
  uuid4 : history -> str;
  now_strftime : history -> str;
  get_message_content : history -> str -> except (list (list N));
  save_image : history -> str -> list (list N) -> except unit;
  generate_content : history -> str -> except str;
  sheets_auth : history -> except unit;
  append_execute : history -> str -> str -> list (list pyval) -> except append_result;
  reply_message : history -> str -> str -> except unit;
  (* the SDK's WebhookHandler: signature check and payload parser *)
  validate_signature : str -> str -> bool;
  parse_payload : str -> except (list webhook_event)
}.

(** ** The program *)

(** [r'\t|\s{2,}'] *)
Definition SEP : regex := Alt (One (Chr TAB)) (AtLeast 2 Space).

Definition SAVE_DIR : str := lit "images".

(** [os.path.join(a, b)] on POSIX. *)
Definition path_join (a b : str) : str :=
  match b with
  | 47%N :: _ => b
  | _ =>
      match rev a with
      | [] => b
      | 47%N :: _ => a ++ b
      | _ => a ++ 47%N :: b
      end
  end.

(** The [try] block of [format_text_to_table]. *)
Definition format_body (text : pyval) : except (list (list str)) :=
  match method_split text NL with
  | Raise e => Raise e
  | Ok lines =>
      let lines := map strip (filter (fun line => truthy (strip line)) lines) in
      Ok (fold_left
            (fun table_data line =>
               let columns := re_split SEP line in
               let columns :=
                 map strip (filter (fun col => truthy (strip col)) columns) in
               if truthy columns then table_data ++ [columns] else table_data)
            lines [])
  end.

Definition format_text_to_table (text : pyval) : M (list (list pyval)) :=
  try_except
    (table_data <- lift (format_body text) ;;
     ret (map (map VStr) table_data))
    (fun e =>
       print (lit "テキストの表形式変換中にエラーが発生しました: " ++ str_of_exn e) ;;
       ret [[text]]).

(** *** The [try] block under the interpreter's checks

    Above, the lines and the tokens are strings by their Rocq type.  The
    interpreter knows no such thing: it looks up [split] and [strip] on
    whatever object it is handed, [re.split] checks its argument, and a
    [for] asks its object for an iterator; each of these can raise.  The
    block is written once more over untyped values with every such check
    in place. *)

#[warnings="-register-all"]
Inductive dyn :=
| DNone
| DInt (n : N)
| DStr (s : str)
| DList (items : list dyn).

Definition dyn_of (v : pyval) : dyn :=
  match v with
  | VNone => DNone
  | VInt n => DInt n
  | VStr s => DStr s
  end.

(** [type(v).__name__] *)
Definition type_name (v : dyn) : str :=
  match v with
  | DNone => lit "NoneType"
  | DInt _ => lit "int"
  | DStr _ => lit "str"
  | DList _ => lit "list"
  end.

Definition no_attribute (v : dyn) (name : str) : exn :=
  Exn AttributeError
    (lit "'" ++ type_name v ++ lit "' object has no attribute '" ++ name
     ++ lit "'").

Definition and_then {A B} (r : except A) (k : A -> except B) : except B :=
  match r with
  | Ok a => k a
  | Raise e => Raise e
  end.

(** [v.split(sep)] with a one-character [sep] *)
Definition dyn_split (v : dyn) (sep : char) : except dyn :=
  match v with
  | DStr s => Ok (DList (map DStr (split_char sep s)))
  | _ => Raise (no_attribute v (lit "split"))
  end.

(** [v.strip()] *)
Definition dyn_strip (v : dyn) : except dyn :=
  match v with
  | DStr s => Ok (DStr (strip s))
  | _ => Raise (no_attribute v (lit "strip"))
  end.

(** [bool(v)] *)
Definition dyn_truthy (v : dyn) : bool :=
  match v with
  | DNone => false
  | DInt n => negb (n =? 0)%N
  | DStr s => truthy s
  | DList items => truthy items
  end.

(** [iter(v)], run to its end *)
Definition dyn_iter (v : dyn) : except (list dyn) :=
  match v with
  | DList items => Ok items
  | DStr s => Ok (map (fun c => DStr [c]) s)
  | _ => Raise (Exn TypeError (lit "'" ++ type_name v ++ lit "' object is not iterable"))
  end.

(** [re.split(pattern, v)] for a pattern without groups, already compiled *)
Definition dyn_re_split (r : regex) (v : dyn) : except dyn :=
  match v with
  | DStr s => Ok (DList (map DStr (re_split r s)))
  | _ =>
      Raise (Exn TypeError
               (lit "expected string or bytes-like object, got '"
                ++ type_name v ++ lit "'"))
  end.

(** [[x.strip() for x in items if x.strip()]] *)
Fixpoint dyn_strip_nonempty (items : list dyn) : except (list dyn) :=
  match items with
  | [] => Ok []
  | x :: rest =>
      and_then (dyn_strip x) (fun tested =>
      if dyn_truthy tested
      then and_then (dyn_strip x) (fun kept =>
           and_then (dyn_strip_nonempty rest) (fun others =>
           Ok (kept :: others)))
      else dyn_strip_nonempty rest)
  end.

(** The [for line in lines] loop, [table_data] as it stands on entry. *)
Fixpoint dyn_rows (lines : list dyn) (table_data : list dyn)
  : except (list dyn) :=
  match lines with
  | [] => Ok table_data
  | line :: rest =>
      and_then (dyn_re_split SEP line) (fun columns =>
      and_then (dyn_iter columns) (fun items =>
      and_then (dyn_strip_nonempty items) (fun columns =>
      if truthy columns
      then dyn_rows rest (table_data ++ [DList columns])
      else dyn_rows rest table_data)))
  end.

Definition dyn_format_body (text : dyn) : except dyn :=
  and_then (dyn_split text NL) (fun lines =>
  and_then (dyn_iter lines) (fun items =>
  and_then (dyn_strip_nonempty items) (fun lines =>
  and_then (dyn_rows lines []) (fun table_data =>
  Ok (DList table_data))))).

(** A list of rows of strings as the interpreter holds it. *)
Definition dyn_row (row : list str) : dyn := DList (map DStr row).

Definition dyn_table (table_data : list (list str)) : dyn :=
  DList (map dyn_row table_data).

Definition str_of_cells (c : option N) : str :=
  match c with
  | Some n => str_of_N n
  | None => lit "None"
  end.

(** [result.get('updates').get('updatedCells')] *)
Definition updated_cells (result : append_result) : except (option N) :=
  match result with
  | Some cells => Ok cells
  | None =>
      Raise (Exn AttributeError (lit "'NoneType' object has no attribute 'get'"))
  end.

Section Program.

Variable w : world.

(** Returns [Some tt] for the service object, [None] for Python's [None]. *)
Definition get_google_sheets_service : M (option unit) :=
  try_except
    (call EvSheetsAuth (sheets_auth w) ;;
     ret (Some tt))
    (fun e =>
       print (lit "認証エラーが発生しました: " ++ str_of_exn e) ;;
       ret None).

Definition header_of (table_data : list (list pyval)) : list pyval :=
  VStr (lit "日時")
  :: map (fun i => VStr (lit "列" ++ str_of_N (N.of_nat (i + 1))))
       (seq 0 (match table_data with
               | row0 :: _ => length row0
               | [] => 0
               end)).

Definition save_to_spreadsheet (text : pyval) (spreadsheet_id range_name : str)
  : M unit :=
  try_except
    (service <- get_google_sheets_service ;;
     match service with
     | None => ret tt
     | Some _ =>
         table_data <- format_text_to_table text ;;
         current_time <- ask (now_strftime w) ;;
         let header := header_of table_data in
         let values :=
           fold_left (fun values row => values ++ [VStr current_time :: row])
             table_data [header] in
         result <-
           call (EvAppend spreadsheet_id range_name values)
             (fun h => append_execute w h spreadsheet_id range_name values) ;;
         cells <- lift (updated_cells result) ;;
         print (str_of_cells cells ++ lit " セルが更新されました")
     end)
    (fun e =>
       print (lit "スプレッドシートへの保存中にエラーが発生しました: " ++ str_of_exn e)).

Definition extract_text_from_image (image_path : str) : M str :=
  try_except
    (call (EvVision image_path) (fun h => generate_content w h image_path))
    (fun e => ret (lit "エラーが発生しました: " ++ str_of_exn e)).

Definition RANGE_NAME : str := lit "シート1!A1".

Definition reply (token text : str) : M unit :=
  call (EvReply token text) (fun h => reply_message w h token text).

Definition REPLY_SAVED (extracted_text : str) : str :=
  lit "画像から文字を抽出し、スプレッドシートに保存しました。"
  ++ [NL; NL] ++ lit "抽出した内容:" ++ [NL] ++ extracted_text.

(** The [try] block of [handle_image_message].  [if SPREADSHEET_ID:] holds
    for a variable that is set to a non-empty string. *)
Definition handle_image_message_try (ev : message_event) : M unit :=
  let mid := message_id ev in
  message_content <-
    call (EvGetMessageContent mid) (fun h => get_message_content w h mid) ;;
  file_name <- ask (fun h => uuid4 w h ++ lit ".jpg") ;;
  let file_path := path_join SAVE_DIR file_name in
  call (EvSaveImage file_path message_content)
    (fun h => save_image w h file_path message_content) ;;
  extracted_text <- extract_text_from_image file_path ;;
  match getenv_SPREADSHEET_ID w with
  | Some (c :: id) =>
      save_to_spreadsheet (VStr extracted_text) (c :: id) RANGE_NAME ;;
      reply (reply_token ev) (REPLY_SAVED extracted_text)
  | _ =>
      reply (reply_token ev) (lit "スプレッドシートIDが設定されていません。")
  end.

Definition REPLY_ERROR (e : exn) : str :=
  lit "エラーが発生しました: " ++ str_of_exn e.

Definition handle_image_message (ev : message_event) : M unit :=
  try_except
    (handle_image_message_try ev)
    (fun e => reply (reply_token ev) (REPLY_ERROR e)).

(** *** The webhook endpoint *)

(** A request: the value of its [X-Line-Signature] header, when it has
    one, and its body. *)
Record request := Request {
  header_signature : option str;   (* request.headers.get('X-Line-Signature') *)
  data : str                       (* request.get_data(as_text=True) *)
}.

(** [request.headers['X-Line-Signature']]: the environment of the request
    is looked up under ['HTTP_X_LINE_SIGNATURE'], with a [KeyError] when
    the header is missing. *)
Definition headers_signature (req : request) : except str :=
  match header_signature req with
  | Some signature => Ok signature
  | None => Raise (Exn KeyError (lit "'HTTP_X_LINE_SIGNATURE'"))
  end.

Fixpoint dispatch (events : list webhook_event) : M unit :=
  match events with
  | [] => ret tt
  | ImageMessageEvent ev :: rest => handle_image_message ev ;; dispatch rest
  | OtherEvent :: rest => dispatch rest
  end.

(** [handler.handle(body, signature)]: the SDK checks the signature, raises
    [InvalidSignatureError] when it does not fit the body, and otherwise
    parses the body and calls the registered handler on each event in
    turn. *)
Definition handler_handle (body signature : str) : M unit :=
  if validate_signature w body signature then
    events <- lift (parse_payload w body) ;;
    dispatch events
  else raise (Exn InvalidSignatureError
                (lit "Invalid signature. signature=" ++ signature)).

(** [abort(status)] *)
Definition abort {A} (status : nat) : M A :=
  raise (Exn (HTTPException status) []).

Definition is_InvalidSignatureError (c : exn_class) : bool :=
  match c with InvalidSignatureError => true | _ => false end.

Definition callback (req : request) : M str :=
  signature <- lift (headers_signature req) ;;
  let body := data req in
  emit (EvLog (lit "Request body: " ++ body)) ;;
  try_except_only is_InvalidSignatureError
    (handler_handle body signature)
    (abort 400) ;;
  ret (lit "OK").

End Program.

(** ** The formatting as the specification words it *)

Module Spec.

(** A string that is not empty after stripping. *)
Definition nonblank (s : str) : bool := truthy (strip s).

Definition head_is_space (s : str) : bool :=
  match s with
  | c :: _ => is_space c
  | [] => false
  end.

(** Splitting on a tab or a run of two or more whitespace characters, one
    character at a time.  The first piece of the result is the one being
    read; [in_run] says that a run is being skipped. *)
Fixpoint split_sep (in_run : bool) (s : str) : list str :=
  match s with
  | [] => [[]]
  | c :: t =>
      if in_run && is_space c then split_sep true t
      else if (c =? TAB)%N then [] :: split_sep false t
      else if is_space c && head_is_space t then [] :: split_sep true t
      else match split_sep false t with
           | h :: r => (c :: h) :: r
           | [] => [[c]]
           end
  end.

(** Split by newlines, drop the lines that are empty after stripping,
    split each remaining line, drop the tokens that are empty after
    stripping: one row per remaining line, of its remaining tokens. *)
Definition table_as_claimed (text : str) : list (list str) :=
  map (fun line => filter nonblank (split_sep false line))
    (filter nonblank (split_char NL text)).

(** The same, with the remaining tokens stripped. *)
Definition table_stripped (text : str) : list (list str) :=
  map (fun line => map strip (filter nonblank (split_sep false line)))
    (filter nonblank (split_char NL text)).

(** No tab and no two adjacent whitespace characters. *)
Fixpoint no_separator (s : str) : bool :=
  match s with
  | [] => true
  | c :: t =>
      negb (c =? TAB)%N && negb (is_space c && head_is_space t)
      && no_separator t
  end.

(** No leading and no trailing whitespace. *)
Definition trimmed (s : str) : Prop :=
  head_is_space s = false /\ head_is_space (rev s) = false.

(** The label of the [k]-th column of the header, [k] from 1. *)
Definition column_label (k : nat) : pyval :=
  VStr (lit "列" ++ str_of_N (N.of_nat k)).

Definition timestamp_label : pyval := VStr (lit "日時").

End Spec.

Import Spec.

(** ** What a run leaves behind *)

(** The result and the output of [format_text_to_table], read off its
    [try] block. *)
Definition table_of (text : pyval) : list (list pyval) :=
  match format_body text with
  | Ok table_data => map (map VStr) table_data
  | Raise _ => [[text]]
  end.

Definition table_log (text : pyval) : list event :=
  match format_body text with
  | Ok _ => []
  | Raise e =>
      [EvPrint (lit "テキストの表形式変換中にエラーが発生しました: " ++ str_of_exn e)]
  end.

(** The [values] of the append request: the header, then one row per row
    of the table with the time in front. *)
Definition sheet_values (current_time : str) (table_data : list (list pyval))
  : list (list pyval) :=
  header_of table_data :: map (cons (VStr current_time)) table_data.

(** What [save_to_spreadsheet] prints after the append request. *)
Definition save_message (answer : except append_result) : str :=
  let failed e :=
    lit "スプレッドシートへの保存中にエラーが発生しました: " ++ str_of_exn e in
  match answer with
  | Raise e => failed e
  | Ok result =>
      match updated_cells result with
      | Raise e => failed e
      | Ok cells => str_of_cells cells ++ lit " セルが更新されました"
      end
  end.

(** Characters below 128: no surrogate among them. *)
Definition ascii_only (s : str) : Prop := Forall (fun c => (c < 128)%N) s.

(** What [print s] writes, and how it ends. *)
Definition printed (s : str) : list event :=
  if has_surrogate s then [] else [EvPrint s].

Definition print_result (s : str) : except unit :=
  if has_surrogate s then Raise (unicode_encode_error s) else Ok tt.

(** What is printed when the service object cannot be built with [e]: the
    message of [get_google_sheets_service], or, when that message cannot
    be printed, the message of [save_to_spreadsheet] about the failed
    [print]. *)
Definition auth_failure_line (e : exn) : str :=
  let message := lit "認証エラーが発生しました: " ++ str_of_exn e in
  if has_surrogate message
  then lit "スプレッドシートへの保存中にエラーが発生しました: "
       ++ encode_error_message message
  else message.

(** The events of one call of [save_to_spreadsheet] started at [h]. *)
Definition save_events (w : world) (text : pyval) (spreadsheet_id range_name : str)
    (h : history) : list event :=
  match sheets_auth w h with
  | Raise e => [EvSheetsAuth; EvPrint (auth_failure_line e)]
  | Ok _ =>
      let h2 := (h ++ [EvSheetsAuth]) ++ table_log text in
      let values := sheet_values (now_strftime w h2) (table_of text) in
      [EvSheetsAuth] ++ table_log text
      ++ [EvAppend spreadsheet_id range_name values]
      ++ printed (save_message
                    (append_execute w h2 spreadsheet_id range_name values))
  end.

(** How that call ends. *)
Definition save_result (w : world) (text : pyval) (spreadsheet_id range_name : str)
    (h : history) : except unit :=
  match sheets_auth w h with
  | Raise _ => Ok tt
  | Ok _ =>
      let h2 := (h ++ [EvSheetsAuth]) ++ table_log text in
      let values := sheet_values (now_strftime w h2) (table_of text) in
      print_result (save_message
                      (append_execute w h2 spreadsheet_id range_name values))
  end.

(** The text [extract_text_from_image] returns for an answer of the
    vision service. *)
Definition extracted (answer : except str) : str :=
  match answer with
  | Ok text => text
  | Raise e => lit "エラーが発生しました: " ++ str_of_exn e
  end.

(** The [values] lists handed to the spreadsheet in a stretch of history. *)
Fixpoint appended (evs : list event) : list (list (list pyval)) :=
  match evs with
  | [] => []
  | EvAppend _ _ values :: rest => values :: appended rest
  | _ :: rest => appended rest
  end.

(** The events after the first [n]. *)
Definition since (n : nat) (h : history) : list event := skipn n h.

(** The steps of the pipeline, as they show in the history. *)
Inductive step :=
| Download
| SaveFile
| CallVision
| AppendRows
| SendReply.

Fixpoint steps_of (evs : list event) : list step :=
  match evs with
  | [] => []
  | EvGetMessageContent _ :: rest => Download :: steps_of rest
  | EvSaveImage _ _ :: rest => SaveFile :: steps_of rest
  | EvVision _ :: rest => CallVision :: steps_of rest
  | EvAppend _ _ _ :: rest => AppendRows :: steps_of rest
  | EvReply _ _ :: rest => SendReply :: steps_of rest
  | _ :: rest => steps_of rest
  end.

(** The columns kept from the pieces of a line:
    [[col.strip() for col in columns if col.strip()]]. *)
Definition columns_of (pieces : list str) : list str :=
  map strip (filter nonblank pieces).

(** The table as the loops of [format_text_to_table] build it. *)
Definition table_direct (text : str) : list (list str) :=
  map (fun line => columns_of (re_split SEP (strip line)))
    (filter nonblank (split_char NL text)).

Definition blank (s : str) : Prop := forallb is_space s = true.

Definition push (c : char) (pieces : list str) : list str :=
  match pieces with
  | h :: r => (c :: h) :: r
  | [] => [[c]]
  end.

(** ** Sample runs *)

Module Sample.

Definition ev0 : message_event :=
  MessageEvent (lit "msg-1") (lit "token-1").

(** Every service answers. *)
Definition all_fine : world := {|
  getenv_SPREADSHEET_ID := Some (lit "sheet-1");
  uuid4 := fun _ => lit "0b6f";
  now_strftime := fun _ => lit "2024-05-01 09:30:00";
  get_message_content := fun _ _ => Ok [[255; 216]%N];
  save_image := fun _ _ _ => Ok tt;
  generate_content := fun _ _ => Ok [97; 9; 98; 10; 99]%N;
  sheets_auth := fun _ => Ok tt;
  append_execute := fun _ _ _ _ => Ok (Some (Some 5%N));
  reply_message := fun _ _ _ => Ok tt;
  validate_signature := fun _ _ => true;
  parse_payload := fun _ => Ok [ImageMessageEvent ev0]
|}.

(** [credentials.json] is missing: the service object cannot be built. *)
Definition no_credentials : world := {|
  getenv_SPREADSHEET_ID := getenv_SPREADSHEET_ID all_fine;
  uuid4 := uuid4 all_fine;
  now_strftime := now_strftime all_fine;
  get_message_content := get_message_content all_fine;
  save_image := save_image all_fine;
  generate_content := generate_content all_fine;
  sheets_auth := fun _ =>
    Raise (Exn OSError (lit "[Errno 2] No such file or directory: 'credentials.json'"));
  append_execute := append_execute all_fine;
  reply_message := reply_message all_fine;
  validate_signature := validate_signature all_fine;
  parse_payload := parse_payload all_fine
|}.

(** The reply token is no longer accepted: every reply fails. *)
Definition reply_refused : world := {|
  getenv_SPREADSHEET_ID := getenv_SPREADSHEET_ID all_fine;
  uuid4 := uuid4 all_fine;
  now_strftime := now_strftime all_fine;
  get_message_content := get_message_content all_fine;
  save_image := save_image all_fine;
  generate_content := generate_content all_fine;
  sheets_auth := sheets_auth all_fine;
  append_execute := append_execute all_fine;
  reply_message := fun _ _ _ =>
    Raise (Exn LineBotApiError (lit "Invalid reply token"));
  validate_signature := validate_signature all_fine;
  parse_payload := parse_payload all_fine
|}.

Definition req0 : request :=
  Request (Some (lit "c2lnbmF0dXJl")) (lit "payload-1").

End Sample.

(** ** The script of [image_to_text.py] *)

Definition TEST_IMAGE : str := lit "test.jpg".

Definition NOT_CONFIGURED : str := lit "スプレッドシートIDが設定されていません。".

(** The [if __name__ == "__main__":] block.  The four functions it calls
    are the same in both files. *)
Definition main (w : world) : M unit :=
  let image_path := TEST_IMAGE in
  extracted_text <- extract_text_from_image w image_path ;;
  print (lit "抽出されたテキスト:") ;;
  print extracted_text ;;
  match getenv_SPREADSHEET_ID w with
  | Some (c :: id) =>
      save_to_spreadsheet w (VStr extracted_text) (c :: id) RANGE_NAME
  | _ => print NOT_CONFIGURED
  end.

(** ** Writing a table back as text *)

(** [sep.join(parts)] *)
Fixpoint join (sep : str) (parts : list str) : str :=
  match parts with
  | [] => []
  | [p] => p
  | p :: rest => p ++ sep ++ join sep rest
  end.

(** Cells separated by tabs, rows by newlines:
    ['\n'.join('\t'.join(row) for row in rows)]. *)
Definition render (rows : list (list str)) : str :=
  join [NL] (map (join [TAB]) rows).

(** A cell as [format_text_to_table] returns them: not empty, trimmed,
    without tab, newline or two adjacent whitespace characters. *)
Definition cell_like (tok : str) : Prop :=
  tok <> [] /\ trimmed tok /\ no_separator tok = true /\ ~ In NL tok.

(** ** More readings of a history *)

(** The texts of the replies, in order. *)
Fixpoint replies (evs : list event) : list str :=
  match evs with
  | [] => []
  | EvReply _ text :: rest => text :: replies rest
  | _ :: rest => replies rest
  end.

(** Whether the spreadsheet service was contacted at all. *)
Fixpoint touches_sheets (evs : list event) : bool :=
  match evs with
  | [] => false
  | EvSheetsAuth :: _ => true
  | EvAppend _ _ _ :: _ => true
  | _ :: rest => touches_sheets rest
  end.

(** The step sequences a call of [handle_image_message] can show. *)
Definition pipeline_shapes : list (list step) :=
  [ [Download; SendReply];
    [Download; SaveFile; SendReply];
    [Download; SaveFile; CallVision; SendReply];
    [Download; SaveFile; CallVision; SendReply; SendReply];
    [Download; SaveFile; CallVision; AppendRows; SendReply];
    [Download; SaveFile; CallVision; AppendRows; SendReply; SendReply] ].

(** Whether [if SPREADSHEET_ID:] holds. *)
Definition configured (w : world) : bool :=
  match getenv_SPREADSHEET_ID w with
  | Some (_ :: _) => true
  | _ => false
  end.

(** The reply of the [try] block sent at [h], and the error reply that
    follows when it raises. *)
Definition replying (w : world) (h : history) (tok text : str) : list event :=
  EvReply tok text
  :: match reply_message w h tok text with
     | Ok _ => []
     | Raise e => [EvReply tok (REPLY_ERROR e)]
     end.

(** The events of one call of [handle_image_message] started at [h]. *)
Definition handler_events (w : world) (ev : message_event) (h : history)
  : list event :=
  let mid := message_id ev in
  let tok := reply_token ev in
  let h1 := h ++ [EvGetMessageContent mid] in
  match get_message_content w h mid with
  | Raise e => [EvGetMessageContent mid; EvReply tok (REPLY_ERROR e)]
  | Ok content =>
      let path := path_join SAVE_DIR (uuid4 w h1 ++ lit ".jpg") in
      let h2 := h1 ++ [EvSaveImage path content] in
      match save_image w h1 path content with
      | Raise e =>
          [EvGetMessageContent mid; EvSaveImage path content;
           EvReply tok (REPLY_ERROR e)]
      | Ok _ =>
          let text := extracted (generate_content w h2 path) in
          let h3 := h2 ++ [EvVision path] in
          [EvGetMessageContent mid; EvSaveImage path content; EvVision path]
          ++ match getenv_SPREADSHEET_ID w with
             | Some (c :: id) =>
                 let saved := save_events w (VStr text) (c :: id) RANGE_NAME h3 in
                 saved
                 ++ match save_result w (VStr text) (c :: id) RANGE_NAME h3 with
                    | Ok _ => replying w (h3 ++ saved) tok (REPLY_SAVED text)
                    | Raise e => [EvReply tok (REPLY_ERROR e)]
                    end
             | _ => replying w h3 tok NOT_CONFIGURED
             end
      end
  end.

Definition is_image_event (ev : webhook_event) : bool :=
  match ev with
  | ImageMessageEvent _ => true
  | OtherEvent => false
  end.

(** [int(s)] for a string of decimal digits. *)
Definition decimal_value (s : str) : N :=
  fold_left (fun acc d => (10 * acc + (d - 48))%N) s 0%N.

Module MoreSamples.

(** [SPREADSHEET_ID] is not set. *)
Definition unconfigured : world := {|
  getenv_SPREADSHEET_ID := None;
  uuid4 := uuid4 Sample.all_fine;
  now_strftime := now_strftime Sample.all_fine;
  get_message_content := get_message_content Sample.all_fine;
  save_image := save_image Sample.all_fine;
  generate_content := generate_content Sample.all_fine;
  sheets_auth := sheets_auth Sample.all_fine;
  append_execute := append_execute Sample.all_fine;
  reply_message := reply_message Sample.all_fine;
  validate_signature := validate_signature Sample.all_fine;
  parse_payload := parse_payload Sample.all_fine
|}.

(** The vision API is out of quota. *)
Definition vision_down : world := {|
  getenv_SPREADSHEET_ID := getenv_SPREADSHEET_ID Sample.all_fine;
  uuid4 := uuid4 Sample.all_fine;
  now_strftime := now_strftime Sample.all_fine;
  get_message_content := get_message_content Sample.all_fine;
  save_image := save_image Sample.all_fine;
  generate_content := fun _ _ => Raise (Exn OtherError (lit "429 quota exceeded"));
  sheets_auth := sheets_auth Sample.all_fine;
  append_execute := append_execute Sample.all_fine;
  reply_message := reply_message Sample.all_fine;
  validate_signature := validate_signature Sample.all_fine;
  parse_payload := parse_payload Sample.all_fine
|}.

(** A payload of a follow event and a text message: no image. *)
Definition no_image : world := {|
  getenv_SPREADSHEET_ID := getenv_SPREADSHEET_ID Sample.all_fine;
  uuid4 := uuid4 Sample.all_fine;
  now_strftime := now_strftime Sample.all_fine;
  get_message_content := get_message_content Sample.all_fine;
  save_image := save_image Sample.all_fine;
  generate_content := generate_content Sample.all_fine;
  sheets_auth := sheets_auth Sample.all_fine;
  append_execute := append_execute Sample.all_fine;
  reply_message := reply_message Sample.all_fine;
  validate_signature := validate_signature Sample.all_fine;
  parse_payload := fun _ => Ok [OtherEvent; OtherEvent]
|}.

End MoreSamples.

(** * Properties *)

(** Unfolding the plumbing of [M]. *)
Ltac run_monad :=
  unfold try_except, try_except_only, bind, call, ask, ret, raise, lift,
    print, emit;
  cbv beta.

(** ** Printing *)

Lemma has_surrogate_app a b :
  has_surrogate (a ++ b) = has_surrogate a || has_surrogate b.
Proof. apply existsb_app. Qed.

Lemma print_run s h : print s h = (print_result s, h ++ printed s).
Proof.
  unfold print, print_result, printed.
  destruct (has_surrogate s); [now rewrite app_nil_r | reflexivity].
Qed.

Lemma print_plain s h :
  has_surrogate s = false -> print s h = (Ok tt, h ++ [EvPrint s]).
Proof. intros H. unfold print. now rewrite H. Qed.

Lemma ascii_only_plain s : ascii_only s -> has_surrogate s = false.
Proof.
  induction 1 as [|c t Hc _ IH]; [reflexivity|].
  cbn [has_surrogate existsb]. fold (has_surrogate t). rewrite IH, orb_false_r.
  unfold is_surrogate. apply andb_false_iff. left. apply N.leb_gt. lia.
Qed.

Lemma digits_go_ascii f : forall n acc,
  ascii_only acc -> ascii_only (digits_go f n acc).
Proof.
  induction f as [|f IH]; intros n acc Hacc; [exact Hacc|].
  cbn [digits_go].
  assert (Hd : ascii_only ((48 + n mod 10)%N :: acc)).
  { constructor; [|exact Hacc]. pose proof (N.mod_lt n 10). lia. }
  destruct (n <? 10)%N; [exact Hd | now apply IH].
Qed.

Lemma str_of_N_plain n : has_surrogate (str_of_N n) = false.
Proof. apply ascii_only_plain, digits_go_ascii. constructor. Qed.

Lemma hex_digit_ascii n : (hex_digit (n mod 16) < 128)%N.
Proof.
  unfold hex_digit. pose proof (N.mod_lt n 16).
  destruct (n mod 16 <? 10)%N; lia.
Qed.

Lemma hex4_plain c : has_surrogate (hex4 c) = false.
Proof.
  apply ascii_only_plain. unfold hex4.
  repeat constructor; apply hex_digit_ascii.
Qed.

(** The message of the codec can itself be printed. *)
Lemma encode_error_message_plain s : has_surrogate (encode_error_message s) = false.
Proof.
  unfold encode_error_message.
  destruct (first_surrogates 0 s) as [[[pos c] [|[|n]]]|];
    rewrite ?has_surrogate_app, ?str_of_N_plain, ?hex4_plain; reflexivity.
Qed.

(** The exceptions of the [try] block of [format_text_to_table] have
    messages that can be printed. *)
Lemma format_body_raise_plain text e :
  format_body text = Raise e -> has_surrogate (str_of_exn e) = false.
Proof.
  destruct text; cbn [format_body method_split]; intros [=]; now subst.
Qed.

Lemma str_of_cells_plain c : has_surrogate (str_of_cells c) = false.
Proof. destruct c; [apply str_of_N_plain | reflexivity]. Qed.

(** ** Sample evaluations *)

(** ["a\t\tb  c d\t e \tf"]: each tab is a separator of its own, a run of
    whitespace that starts with a space is taken whole. *)
Example re_split_sample :
  re_split SEP [97; 9; 9; 98; 32; 32; 99; 32; 100; 9; 32; 101; 32; 9; 102]%N
  = [[97]; []; [98]; [99; 32; 100]; [32; 101]; [102]]%N.
Proof. reflexivity. Qed.

(** The ideographic space U+3000 is whitespace, for [strip] and for [\s]. *)
Example strip_sample :
  strip [0x3000; 26085; 26178; 32; 10]%N = [26085; 26178]%N.
Proof. reflexivity. Qed.

(** ["name  qty\n\n apple \t 3 \r\n"] *)
Example format_body_sample :
  format_body
    (VStr [110; 97; 109; 101; 32; 32; 113; 116; 121; 10; 10;
           32; 97; 112; 112; 108; 101; 32; 9; 32; 51; 32; 13; 10]%N)
  = Ok [[[110; 97; 109; 101]; [113; 116; 121]];
        [[97; 112; 112; 108; 101]; [51]]]%N.
Proof. reflexivity. Qed.

Example header_sample :
  header_of [[VStr (lit "a"); VStr (lit "b")]; [VStr (lit "c")]]
  = [VStr (lit "日時"); VStr (lit "列1"); VStr (lit "列2")].
Proof. reflexivity. Qed.

Example path_sample :
  path_join SAVE_DIR (lit "0b6f.jpg") = lit "images/0b6f.jpg".
Proof. reflexivity. Qed.

(** ** Stripping *)


Lemma lstrip_idem s : lstrip (lstrip s) = lstrip s.
Proof.
  induction s as [|c t IH]; simpl; auto.
  destruct (is_space c) eqn:E; auto. simpl. now rewrite E.
Qed.

Lemma lstrip_head s : head_is_space (lstrip s) = false.
Proof.
  induction s as [|c t IH]; simpl; auto.
  destruct (is_space c) eqn:E; auto.
Qed.

Lemma lstrip_fix s : head_is_space s = false -> lstrip s = s.
Proof. destruct s as [|c t]; simpl; auto. now intros ->. Qed.

Lemma lstrip_app_blank ws s : forallb is_space ws = true -> lstrip (ws ++ s) = lstrip s.
Proof.
  induction ws as [|c t IH]; simpl; auto.
  intros H. apply andb_prop in H as [-> H]. auto.
Qed.

Lemma lstrip_blank ws : forallb is_space ws = true -> lstrip ws = [].
Proof.
  intros H. rewrite <- (app_nil_r ws). now rewrite lstrip_app_blank.
Qed.

(** [lstrip] leaves a string that holds a non-space character in front of
    whatever follows. *)
Lemma lstrip_app s u :
  lstrip s <> [] -> lstrip (s ++ u) = lstrip s ++ u.
Proof.
  induction s as [|c t IH]; simpl; [easy|].
  destruct (is_space c); auto.
Qed.

Lemma lstrip_suffix s : exists ws, forallb is_space ws = true /\ s = ws ++ lstrip s.
Proof.
  induction s as [|c t [ws [Hws IH]]]; simpl.
  - now exists [].
  - destruct (is_space c) eqn:E.
    + exists (c :: ws). simpl. rewrite E, Hws. split; auto. now rewrite <- IH.
    + now exists [].
Qed.

Lemma length_lstrip s : length (lstrip s) <= length s.
Proof.
  induction s as [|c t IH]; simpl; [lia|].
  destruct (is_space c); simpl; lia.
Qed.

Lemma rstrip_app_blank s ws : forallb is_space ws = true -> rstrip (s ++ ws) = rstrip s.
Proof.
  intros H. unfold rstrip. rewrite rev_app_distr, lstrip_app_blank; auto.
  rewrite forallb_forall in *. intros x Hx. apply H. now apply in_rev.
Qed.

Lemma rstrip_cons_nonspace c s : is_space c = false -> rstrip (c :: s) = c :: rstrip s.
Proof.
  intros E. unfold rstrip. simpl.
  destruct (lstrip (rev s)) eqn:L.
  - destruct (lstrip_suffix (rev s)) as [ws [Hws Hs]]. rewrite L, app_nil_r in Hs.
    rewrite Hs, lstrip_app_blank; auto. simpl. now rewrite E.
  - rewrite lstrip_app by (rewrite L; discriminate). rewrite L.
    now rewrite rev_app_distr.
Qed.

Lemma strip_cons_space c s : is_space c = true -> strip (c :: s) = strip s.
Proof. intros E. unfold strip. simpl. now rewrite E. Qed.

Lemma strip_cons_nonspace c s : is_space c = false -> strip (c :: s) = c :: rstrip s.
Proof. intros E. unfold strip. simpl. rewrite E. now apply rstrip_cons_nonspace. Qed.

Lemma strip_app_blank s ws : forallb is_space ws = true -> strip (s ++ ws) = strip s.
Proof.
  intros H. unfold strip.
  destruct (lstrip s) eqn:L.
  - destruct (lstrip_suffix s) as [v [Hv Hs]]. rewrite L, app_nil_r in Hs.
    rewrite lstrip_blank; auto. rewrite forallb_app. rewrite <- Hs in Hv. now rewrite Hv, H.
  - rewrite lstrip_app by (rewrite L; discriminate). rewrite L.
    now apply rstrip_app_blank.
Qed.

Lemma strip_blank ws : forallb is_space ws = true -> strip ws = [].
Proof. intros H. unfold strip. now rewrite lstrip_blank. Qed.

Lemma rstrip_trailing s : head_is_space (rev (rstrip s)) = false.
Proof. unfold rstrip. rewrite rev_involutive. apply lstrip_head. Qed.


Lemma strip_head s : head_is_space (strip s) = false.
Proof.
  unfold strip. pose proof (lstrip_head s) as H.
  destruct (lstrip s) as [|c t]; [reflexivity|].
  simpl in H. now rewrite rstrip_cons_nonspace.
Qed.

Lemma strip_trimmed s : trimmed (strip s).
Proof. split; [apply strip_head | apply rstrip_trailing]. Qed.

Lemma strip_fix s : trimmed s -> strip s = s.
Proof.
  intros [H1 H2]. unfold strip, rstrip.
  rewrite (lstrip_fix s H1), (lstrip_fix (rev s) H2). apply rev_involutive.
Qed.

Lemma strip_idem s : strip (strip s) = strip s.
Proof. apply strip_fix, strip_trimmed. Qed.

(** ** The separator pattern *)

Lemma run_length_space_two c t :
  (2 <=? run_length Space (c :: t)) = is_space c && head_is_space t.
Proof.
  simpl. destruct (is_space c); simpl; [|reflexivity].
  destruct t as [|d u]; simpl; [reflexivity|].
  now destruct (is_space d).
Qed.

Lemma re_match_SEP_nil : re_match SEP [] = None.
Proof. reflexivity. Qed.

Lemma re_match_SEP_cons c t :
  re_match SEP (c :: t) =
    if (c =? TAB)%N then Some 1
    else if is_space c && head_is_space t
         then Some (run_length Space (c :: t))
         else None.
Proof.
  unfold SEP. cbn [re_match item_matches].
  destruct (c =? TAB)%N; [reflexivity|].
  now rewrite run_length_space_two.
Qed.

Lemma skipn_run_length s : skipn (run_length Space s) s = lstrip s.
Proof.
  induction s as [|c t IH]; simpl; [reflexivity|].
  destruct (is_space c); simpl; auto.
Qed.

Lemma run_length_le i s : run_length i s <= length s.
Proof.
  induction s as [|c t IH]; simpl; [lia|].
  destruct (item_matches i c); simpl; lia.
Qed.

(** Matches of the pattern are never empty and stay inside the string. *)
Lemma re_match_SEP_bounds s n :
  re_match SEP s = Some n -> 1 <= n <= length s.
Proof.
  destruct s as [|c t]; [discriminate|].
  rewrite re_match_SEP_cons.
  destruct (c =? TAB)%N.
  - intros [= <-]. simpl. lia.
  - destruct (is_space c && head_is_space t) eqn:E; [|discriminate].
    intros [= <-]. pose proof (run_length_le Space (c :: t)).
    rewrite <- run_length_space_two in E. apply Nat.leb_le in E.
    cbn [run_length item_matches] in *. lia.
Qed.

Lemma re_search_SEP_bounds s i n :
  re_search SEP s = Some (i, n) -> 1 <= n /\ i + n <= length s.
Proof.
  revert i. induction s as [|c t IH]; intros i.
  - discriminate.
  - cbn [re_search]. destruct (re_match SEP (c :: t)) as [m|] eqn:E.
    + intros [= <- <-]. apply re_match_SEP_bounds in E. simpl in *. lia.
    + destruct (re_search SEP t) as [[j m]|]; [|discriminate].
      intros [= <- <-]. destruct (IH j eq_refl). simpl. lia.
Qed.

(** Fuel above the length of the string is never used up. *)
Lemma re_split_from_fuel f1 : forall f2 s,
  length s < f1 -> length s < f2 ->
  re_split_from f1 SEP s = re_split_from f2 SEP s.
Proof.
  induction f1 as [|f1 IH]; intros f2 s H1 H2; [lia|].
  destruct f2 as [|f2]; [lia|]. cbn [re_split_from].
  destruct (re_search SEP s) as [[i n]|] eqn:E; [|reflexivity].
  apply re_search_SEP_bounds in E as [Hn Hi]. f_equal.
  apply IH; rewrite length_skipn; lia.
Qed.

Lemma re_split_nil : re_split SEP [] = [[]].
Proof. reflexivity. Qed.

Lemma re_split_from_S f r s :
  re_split_from (S f) r s =
    match re_search r s with
    | None => [s]
    | Some (i, n) => firstn i s :: re_split_from f r (skipn (i + n) s)
    end.
Proof. reflexivity. Qed.

Lemma re_search_unfold r s :
  re_search r s =
    match re_match r s with
    | Some n => Some (0, n)
    | None =>
        match s with
        | [] => None
        | _ :: t =>
            match re_search r t with
            | Some (i, n) => Some (S i, n)
            | None => None
            end
        end
    end.
Proof. destruct s; reflexivity. Qed.

(** [re.split] on the pattern, read off the first character. *)
Lemma re_split_cons c t :
  re_split SEP (c :: t) =
    if (c =? TAB)%N then [] :: re_split SEP t
    else if is_space c && head_is_space t then [] :: re_split SEP (lstrip t)
    else push c (re_split SEP t).
Proof.
  unfold re_split. rewrite re_split_from_S, re_search_unfold, re_match_SEP_cons.
  destruct (c =? TAB)%N eqn:Et.
  - reflexivity.
  - destruct (is_space c && head_is_space t) eqn:E.
    + change (firstn 0 (c :: t)) with (@nil char). f_equal.
      rewrite Nat.add_0_l, skipn_run_length.
      apply andb_prop in E as [Ec _].
      cbn [lstrip]. rewrite Ec.
      pose proof (length_lstrip t).
      apply re_split_from_fuel; simpl; lia.
    + rewrite (re_split_from_S (length t)).
      destruct (re_search SEP t) as [[i n]|] eqn:Es; cbn [push].
      * cbn [firstn Nat.add skipn]. f_equal.
        apply re_search_SEP_bounds in Es as [Hn Hi].
        apply re_split_from_fuel; rewrite length_skipn; simpl; lia.
      * reflexivity.
Qed.

Lemma split_sep_skip s : split_sep true s = split_sep false (lstrip s).
Proof.
  induction s as [|c t IH]; [reflexivity|].
  cbn [lstrip]. destruct (is_space c) eqn:E.
  - cbn [split_sep andb]. now rewrite E.
  - cbn [split_sep andb]. now rewrite E.
Qed.

(** The one-character-at-a-time splitter computes [re.split] on the
    pattern. *)
Lemma split_sep_re_split s : split_sep false s = re_split SEP s.
Proof.
  remember (length s) as n eqn:Hn. revert s Hn.
  induction n as [n IH] using lt_wf_ind. intros s Hn.
  destruct s as [|c t]; [reflexivity|].
  rewrite re_split_cons. cbn [split_sep andb].
  simpl in Hn.
  destruct (c =? TAB)%N.
  - f_equal. apply (IH (length t)); [lia|reflexivity].
  - destruct (is_space c && head_is_space t).
    + f_equal. rewrite split_sep_skip.
      pose proof (length_lstrip t).
      apply (IH (length (lstrip t))); [lia|reflexivity].
    + rewrite (IH (length t)) with (s := t); [reflexivity|lia|reflexivity].
Qed.

(** ** Stripping the line first does not change the columns *)

Lemma nonblank_blank s : blank s -> nonblank s = false.
Proof. intros H. unfold nonblank. now rewrite strip_blank. Qed.

Lemma columns_of_cons_blank h r : blank h -> columns_of (h :: r) = columns_of r.
Proof. intros H. unfold columns_of. simpl. now rewrite nonblank_blank. Qed.

Lemma columns_of_blank ps : Forall blank ps -> columns_of ps = [].
Proof.
  induction 1 as [|h r Hh _ IH]; [reflexivity|].
  now rewrite columns_of_cons_blank.
Qed.

Lemma columns_of_app ps qs : columns_of (ps ++ qs) = columns_of ps ++ columns_of qs.
Proof. unfold columns_of. now rewrite filter_app, map_app. Qed.

Lemma columns_of_push_space c ps :
  is_space c = true -> ps <> [] -> columns_of (push c ps) = columns_of ps.
Proof.
  intros E H. destruct ps as [|h r]; [easy|].
  unfold columns_of, nonblank. cbn [push filter].
  rewrite (strip_cons_space c h E).
  destruct (truthy (strip h)); cbn [map]; [|reflexivity].
  now rewrite (strip_cons_space c h E).
Qed.

Lemma re_split_nonempty s : re_split SEP s <> [].
Proof. unfold re_split. rewrite re_split_from_S. now destruct (re_search SEP s) as [[i n]|]. Qed.

Lemma tab_is_space c : (c =? TAB)%N = true -> is_space c = true.
Proof. intros H. apply N.eqb_eq in H. now subst. Qed.

Lemma columns_lstrip s :
  columns_of (re_split SEP (lstrip s)) = columns_of (re_split SEP s).
Proof.
  induction s as [|c t IH]; [reflexivity|].
  cbn [lstrip]. destruct (is_space c) eqn:E; [|reflexivity].
  rewrite re_split_cons.
  destruct (c =? TAB)%N.
  - now rewrite columns_of_cons_blank.
  - rewrite E. cbn [andb]. destruct (head_is_space t) eqn:Eh.
    + now rewrite columns_of_cons_blank.
    + rewrite columns_of_push_space; auto using re_split_nonempty.
Qed.

Lemma re_split_blank s : blank s -> Forall blank (re_split SEP s).
Proof.
  induction s as [|c t IH]; intros H.
  - now repeat constructor.
  - unfold blank in H. simpl in H. apply andb_prop in H as [Ec Ht].
    rewrite re_split_cons.
    destruct (c =? TAB)%N; [constructor; [reflexivity|auto]|].
    destruct (is_space c && head_is_space t).
    + rewrite (lstrip_blank t Ht). now repeat constructor.
    + specialize (IH Ht). destruct IH as [|h r Hh Hr]; cbn [push].
      * constructor; [|constructor]. unfold blank. simpl. now rewrite Ec.
      * constructor; auto. unfold blank. simpl. now rewrite Ec.
Qed.

Lemma rev_cons_head c t :
  head_is_space (rev (c :: t)) = false ->
  match t with
  | [] => is_space c = false
  | _ :: _ => head_is_space (rev t) = false
  end.
Proof.
  destruct t as [|d u]; [now simpl|].
  cbn [rev]. destruct (rev u ++ [d]) eqn:R.
  - now destruct (rev u).
  - now simpl.
Qed.

Lemma lstrip_nonempty t :
  t <> [] -> head_is_space (rev t) = false -> lstrip t <> [].
Proof.
  intros Ht Hr L. destruct (lstrip_suffix t) as [ws [Hws Hs]].
  rewrite L, app_nil_r in Hs. subst ws.
  destruct (rev t) as [|d u] eqn:R.
  - apply (f_equal (@rev char)) in R. rewrite rev_involutive in R. now subst.
  - simpl in Hr. unfold blank in *. rewrite forallb_forall in Hws.
    rewrite Hws in Hr; [discriminate|]. apply in_rev. rewrite R. now left.
Qed.

Lemma lstrip_rev_head t :
  head_is_space (rev t) = false -> head_is_space (rev (lstrip t)) = false.
Proof.
  intros H. destruct (lstrip_suffix t) as [ws [Hws Hs]].
  destruct (lstrip t) as [|d u] eqn:L; [reflexivity|].
  rewrite Hs, rev_app_distr in H.
  destruct (rev (d :: u)) eqn:R; [reflexivity|]. exact H.
Qed.

(** Whitespace after a string that does not end in whitespace only
    lengthens the last piece by whitespace and adds blank pieces. *)
Lemma re_split_app_blank ws : blank ws -> forall s,
  head_is_space (rev s) = false ->
  exists init lst w0 more,
    re_split SEP s = init ++ [lst] /\
    re_split SEP (s ++ ws) = init ++ (lst ++ w0) :: more /\
    blank w0 /\ Forall blank more.
Proof.
  intros Hws s. remember (length s) as n eqn:Hn. revert s Hn.
  induction n as [n IH] using lt_wf_ind. intros s Hn Hs.
  destruct s as [|c t].
  - pose proof (re_split_blank ws Hws) as Hb.
    destruct (re_split SEP ws) as [|h r] eqn:R; [now apply re_split_nonempty in R|].
    exists [], [], h, r. cbn [app]. rewrite R.
    inversion Hb; subst. auto.
  - apply rev_cons_head in Hs. simpl in Hn.
    rewrite <- app_comm_cons, !re_split_cons.
    destruct (c =? TAB)%N eqn:Et.
    + destruct t as [|d u]; [now rewrite (tab_is_space c Et) in Hs|].
      destruct (IH (length (d :: u))) with (s := d :: u)
        as (init & lst & w0 & more & H1 & H2 & H3 & H4); [simpl in *; lia|reflexivity|exact Hs|].
      exists ([] :: init), lst, w0, more. rewrite H1, H2. auto.
    + destruct t as [|d u].
      * rewrite Hs. cbn [andb app].
        pose proof (re_split_blank ws Hws) as Hb.
        destruct (re_split SEP ws) as [|h r] eqn:R; [now apply re_split_nonempty in R|].
        exists [], [c], h, r. inversion Hb; subst. auto.
      * cbn [app head_is_space].
        destruct (is_space c && is_space d) eqn:E.
        -- assert (Hl : lstrip (d :: u) <> []) by (apply lstrip_nonempty; easy).
           change (d :: u ++ ws) with ((d :: u) ++ ws).
           rewrite lstrip_app by exact Hl.
           pose proof (length_lstrip (d :: u)) as Hle.
           destruct (IH (length (lstrip (d :: u)))) with (s := lstrip (d :: u))
             as (init & lst & w0 & more & H1 & H2 & H3 & H4);
             [simpl in *; lia|reflexivity|now apply lstrip_rev_head|].
           exists ([] :: init), lst, w0, more. rewrite H1, H2. auto.
        -- change (d :: u ++ ws) with ((d :: u) ++ ws).
           destruct (IH (length (d :: u))) with (s := d :: u)
             as (init & lst & w0 & more & H1 & H2 & H3 & H4); [simpl in *; lia|reflexivity|exact Hs|].
           rewrite H1, H2. destruct init as [|i0 init]; cbn [app push].
           ++ exists [], (c :: lst), w0, more. auto.
           ++ exists ((c :: i0) :: init), lst, w0, more. auto.
Qed.

Lemma rstrip_split s :
  exists ws, blank ws /\ s = rstrip s ++ ws.
Proof.
  destruct (lstrip_suffix (rev s)) as [v [Hv Hs]].
  exists (rev v). split.
  - unfold blank in *. rewrite forallb_forall in *. intros x Hx. apply Hv. now apply in_rev.
  - unfold rstrip. rewrite <- rev_app_distr, <- Hs. symmetry. apply rev_involutive.
Qed.

Lemma columns_rstrip s :
  columns_of (re_split SEP (rstrip s)) = columns_of (re_split SEP s).
Proof.
  destruct (rstrip_split s) as [ws [Hws Hs]].
  destruct (re_split_app_blank ws Hws (rstrip s) (rstrip_trailing s))
    as (init & lst & w0 & more & H1 & H2 & H3 & H4).
  rewrite Hs at 2. rewrite H1, H2.
  rewrite !columns_of_app. f_equal.
  change ((lst ++ w0) :: more) with ([lst ++ w0] ++ more).
  rewrite columns_of_app, (columns_of_blank more H4), app_nil_r.
  unfold columns_of, nonblank. cbn [filter].
  rewrite (strip_app_blank lst w0 H3).
  destruct (truthy (strip lst)); cbn [map]; [|reflexivity].
  now rewrite (strip_app_blank lst w0 H3).
Qed.

Lemma columns_strip s :
  columns_of (re_split SEP (strip s)) = columns_of (re_split SEP s).
Proof. unfold strip. now rewrite columns_rstrip, columns_lstrip. Qed.

(** ** The table *)

(** A line that is not blank has a first column. *)
Lemma columns_of_nonblank s :
  nonblank s = true -> truthy (columns_of (re_split SEP (strip s))) = true.
Proof.
  unfold nonblank. intros H.
  pose proof (strip_head s) as Hh.
  destruct (strip s) as [|c t] eqn:Es; [discriminate|].
  simpl in Hh. rewrite re_split_cons.
  destruct (c =? TAB)%N eqn:Et; [now rewrite (tab_is_space c Et) in Hh|].
  rewrite Hh. cbn [andb].
  destruct (re_split SEP t) as [|h r]; cbn [push];
    unfold columns_of, nonblank; cbn [filter];
    rewrite (strip_cons_nonspace c _ Hh); reflexivity.
Qed.

(** The loop that collects the rows. *)
Lemma rows_loop (f : str -> list str) lines : forall acc,
  fold_left (fun table_data line =>
               if truthy (f line) then table_data ++ [f line] else table_data)
    lines acc
  = acc ++ filter truthy (map f lines).
Proof.
  induction lines as [|l ls IH]; intros acc; cbn [fold_left map filter].
  - now rewrite app_nil_r.
  - rewrite IH. destruct (truthy (f l)); [|reflexivity].
    now rewrite <- app_assoc.
Qed.

Lemma filter_all {A} (p : A -> bool) xs :
  Forall (fun x => p x = true) xs -> filter p xs = xs.
Proof.
  induction 1 as [|x r Hx _ IH]; [reflexivity|].
  simpl. now rewrite Hx, IH.
Qed.

(** On a string the [try] block returns, and returns [table_direct]: every
    kept line gives a row, so the test [if columns:] never fails. *)
Lemma format_body_str s : format_body (VStr s) = Ok (table_direct s).
Proof.
  unfold format_body, table_direct. cbn [method_split]. f_equal.
  change (fun line => truthy (strip line)) with nonblank.
  rewrite (rows_loop (fun line => columns_of (re_split SEP line))).
  cbn [app]. rewrite map_map. apply filter_all.
  apply Forall_map, Forall_forall. intros l Hl.
  apply filter_In in Hl as [_ Hl]. now apply columns_of_nonblank.
Qed.

Lemma format_text_to_table_str s h :
  format_text_to_table (VStr s) h = (Ok (map (map VStr) (table_direct s)), h).
Proof.
  unfold format_text_to_table. run_monad. now rewrite format_body_str.
Qed.

Lemma table_of_str s : table_of (VStr s) = map (map VStr) (table_direct s).
Proof. unfold table_of. now rewrite format_body_str. Qed.

Lemma table_log_str s : table_log (VStr s) = [].
Proof. unfold table_log. now rewrite format_body_str. Qed.

(** ** Claims on [format_text_to_table] *)

(** C1, as amended.  For every input string [format_text_to_table] returns,
    without raising or printing, the table of the specification with the
    remaining tokens stripped: the input split by newlines, the lines that
    are empty after stripping dropped, each remaining line split on a tab
    or a run of two or more whitespace characters, the tokens that are
    empty after stripping dropped and the others stripped, one row per
    remaining line, in the order of the lines. *)
Theorem format_text_to_table_rows (s : str) (h : history) :
  format_text_to_table (VStr s) h
  = (Ok (map (map VStr) (table_stripped s)), h).
Proof.
  rewrite format_text_to_table_str. do 3 f_equal.
  unfold table_direct, table_stripped.
  apply map_ext. intros line.
  (* the code strips the line before it splits it: no column changes *)
  rewrite columns_strip.
  (* and the pattern splits as the character scan does *)
  rewrite <- split_sep_re_split.
  reflexivity.
Qed.

(** C1, as stated, fails on ["x\t y"]: the piece [" y"] after the tab is
    not empty after stripping, so the claim keeps it as it is, while the
    code returns it stripped. *)
Lemma format_text_to_table_strips_tokens :
  let s := [120; 9; 32; 121]%N in
  format_text_to_table (VStr s) [] = (Ok [[VStr [120]%N; VStr [121]%N]], [])
  /\ table_as_claimed s = [[[120]%N; [32; 121]%N]]
  /\ fst (format_text_to_table (VStr s) [])
     <> Ok (map (map VStr) (table_as_claimed s)).
Proof.
  cbv zeta. split; [reflexivity|]. split; [reflexivity|].
  vm_compute. discriminate.
Qed.

Lemma split_char_absent sep s : ~ In sep s -> split_char sep s = [s].
Proof.
  induction s as [|c t IH]; intros H; [reflexivity|].
  cbn [split_char]. destruct (c =? sep)%N eqn:E.
  - apply N.eqb_eq in E. subst. exfalso. apply H. now left.
  - rewrite IH; [reflexivity|]. intros Hin. apply H. now right.
Qed.

Lemma re_split_no_separator s : no_separator s = true -> re_split SEP s = [s].
Proof.
  induction s as [|c t IH]; intros H; [reflexivity|].
  cbn [no_separator] in H.
  apply andb_prop in H as [H Ht]. apply andb_prop in H as [H1 H2].
  rewrite re_split_cons.
  apply negb_true_iff in H1, H2. rewrite H1, H2, (IH Ht). reflexivity.
Qed.

(** C2.  A single-line input that is not empty after stripping and whose
    stripped text holds no tab and no two adjacent whitespace characters
    gives one row with one column, the stripped input. *)
Theorem single_line_one_column (s : str) (h : history) :
  ~ In NL s ->
  nonblank s = true ->
  no_separator (strip s) = true ->
  format_text_to_table (VStr s) h = (Ok [[VStr (strip s)]], h).
Proof.
  intros Hnl Hnb Hsep. rewrite format_text_to_table_str. do 2 f_equal.
  unfold table_direct. rewrite (split_char_absent NL s Hnl).
  cbn [filter]. rewrite Hnb. cbn [map]. do 2 f_equal.
  rewrite (re_split_no_separator _ Hsep).
  unfold columns_of, nonblank. cbn [filter].
  rewrite strip_idem. fold (nonblank s). rewrite Hnb.
  cbn [map]. now rewrite strip_idem.
Qed.

Lemma single_line_one_column_witness :
  let s := [32; 97; 32; 98; 13]%N in
  (~ In NL s /\ nonblank s = true /\ no_separator (strip s) = true)
  /\ format_text_to_table (VStr s) [] = (Ok [[VStr [97; 32; 98]%N]], []).
Proof.
  cbv zeta.
  assert (Hnl : ~ In NL [32; 97; 32; 98; 13]%N)
    by (intros [H|[H|[H|[H|[H|[]]]]]]; discriminate H).
  split; [split; [exact Hnl | split; reflexivity]|].
  apply (single_line_one_column [32; 97; 32; 98; 13]%N [] Hnl);
    reflexivity.
Defined.

(** C4.  When the [try] block raises, the function prints the error and
    returns a single row whose only element is the input itself. *)
Theorem fallback_single_row (text : pyval) (e : exn) (h : history) :
  format_body text = Raise e ->
  format_text_to_table text h
  = (Ok [[text]],
     h ++ [EvPrint (lit "テキストの表形式変換中にエラーが発生しました: "
                    ++ str_of_exn e)]).
Proof.
  intros H. unfold format_text_to_table, try_except, bind, lift, ret.
  rewrite H, print_plain; [reflexivity|].
  now rewrite has_surrogate_app, (format_body_raise_plain text e H).
Qed.

Lemma fallback_single_row_witness :
  let e := Exn AttributeError (lit "'NoneType' object has no attribute 'split'") in
  format_body VNone = Raise e
  /\ format_text_to_table VNone []
     = (Ok [[VNone]],
        [EvPrint (lit "テキストの表形式変換中にエラーが発生しました: "
                  ++ str_of_exn e)]).
Proof.
  cbv zeta. split; [reflexivity|].
  apply (fallback_single_row VNone
           (Exn AttributeError (lit "'NoneType' object has no attribute 'split'")) []).
  reflexivity.
Defined.

Lemma dyn_strip_nonempty_strs (items : list str) :
  dyn_strip_nonempty (map DStr items)
  = Ok (map DStr (map strip (filter (fun x => truthy (strip x)) items))).
Proof.
  induction items as [|x rest IH]; [reflexivity|].
  cbn [map dyn_strip_nonempty dyn_strip and_then dyn_truthy filter].
  rewrite IH. now destruct (truthy (strip x)).
Qed.

Lemma dyn_rows_strs (lines : list str) : forall table_data : list (list str),
  dyn_rows (map DStr lines) (map dyn_row table_data)
  = Ok (map dyn_row
          (fold_left
             (fun table_data line =>
                let columns := re_split SEP line in
                let columns :=
                  map strip (filter (fun col => truthy (strip col)) columns) in
                if truthy columns then table_data ++ [columns] else table_data)
             lines table_data)).
Proof.
  induction lines as [|line rest IH]; intros table_data; [reflexivity|].
  cbn [map dyn_rows dyn_re_split dyn_iter and_then fold_left].
  rewrite dyn_strip_nonempty_strs. cbn [and_then]. cbv zeta.
  set (columns := map strip (filter _ (re_split SEP line))).
  assert (Ht : truthy (map DStr columns) = truthy columns)
    by now destruct columns.
  rewrite Ht. destruct (truthy columns); [|apply IH].
  change [DList (map DStr columns)] with (map dyn_row [columns]).
  rewrite <- map_app. apply IH.
Qed.

(** C8.  On a string the [try] block of [format_text_to_table] never
    raises.  Run under the interpreter's checks (the attribute lookups of
    [split] and [strip], the argument check of [re.split], the iterators
    of the loops), none of them fails: every value that reaches a check
    is a string or a list of strings.  The block computes a table, the
    function returns it, and the [except] branch, which prints, is not
    entered. *)
Theorem format_body_never_raises (s : str) (h : history) :
  exists table_data,
    dyn_format_body (DStr s) = Ok (dyn_table table_data)
    /\ format_body (VStr s) = Ok table_data
    /\ format_text_to_table (VStr s) h = (Ok (map (map VStr) table_data), h)
    /\ table_log (VStr s) = [].
Proof.
  exists (table_direct s). split.
  - pose proof (format_body_str s) as Hb. unfold format_body in Hb.
    cbn [method_split] in Hb. injection Hb as Hb.
    unfold dyn_format_body.
    cbn [dyn_split dyn_iter and_then].
    rewrite dyn_strip_nonempty_strs. cbn [and_then].
    rewrite (dyn_rows_strs _ []). cbn [and_then].
    unfold dyn_table. now rewrite Hb.
  - split; [apply format_body_str|].
    split; [apply format_text_to_table_str | apply table_log_str].
Qed.

(** The two readings of the block agree on every value: where the typed
    one raises so does the untyped one, with the same exception. *)
Lemma dyn_format_body_agrees (text : pyval) :
  dyn_format_body (dyn_of text)
  = match format_body text with
    | Ok table_data => Ok (dyn_table table_data)
    | Raise e => Raise e
    end.
Proof.
  destruct text as [|n|s]; [reflexivity | reflexivity |].
  unfold dyn_format_body, format_body.
  cbn [dyn_of dyn_split dyn_iter and_then method_split].
  rewrite dyn_strip_nonempty_strs. cbn [and_then].
  now rewrite (dyn_rows_strs _ []).
Qed.

(** The checks are live: a value of another type stops the block where
    Python stops it. *)
Example dyn_checks_can_fail :
  dyn_format_body (DList [DStr [97]%N])
  = Raise (Exn AttributeError (lit "'list' object has no attribute 'split'"))
  /\ dyn_strip_nonempty [DStr [97]%N; DInt 3]
     = Raise (Exn AttributeError (lit "'int' object has no attribute 'strip'"))
  /\ dyn_rows [DStr [97]%N; DNone] []
     = Raise (Exn TypeError
                (lit "expected string or bytes-like object, got 'NoneType'"))
  /\ dyn_iter (DInt 3)
     = Raise (Exn TypeError (lit "'int' object is not iterable")).
Proof. repeat split. Qed.

Lemma strip_nonempty t : nonblank t = true -> strip t <> [].
Proof. unfold nonblank. now destruct (strip t). Qed.

(** C9.  Every row returned for a string has at least one token, and
    every token is a non-empty string without leading or trailing
    whitespace. *)
Theorem rows_nonempty_tokens_trimmed (s : str) (h : history) :
  exists rows,
    format_text_to_table (VStr s) h = (Ok (map (map VStr) rows), h)
    /\ Forall (fun row =>
                 row <> [] /\ Forall (fun tok => tok <> [] /\ trimmed tok) row)
         rows.
Proof.
  exists (table_direct s). split; [apply format_text_to_table_str|].
  unfold table_direct. apply Forall_map, Forall_forall. intros l Hl.
  apply filter_In in Hl as [_ Hl]. split.
  - pose proof (columns_of_nonblank l Hl) as H.
    intros E. now rewrite E in H.
  - unfold columns_of. apply Forall_map, Forall_forall. intros t Ht.
    apply filter_In in Ht as [_ Ht].
    split; [now apply strip_nonempty | apply strip_trimmed].
Qed.

(** ** Runs of the effectful functions *)

(** Unfolding the plumbing of [M] around the external calls, the prints
    left as they are. *)
Ltac run_calls :=
  unfold try_except, try_except_only, bind, call, ask, ret, raise, lift, emit;
  cbv beta.

Lemma print_result_plain s : has_surrogate s = false -> print_result s = Ok tt.
Proof. intros H. unfold print_result. now rewrite H. Qed.

Lemma printed_plain s : has_surrogate s = false -> printed s = [EvPrint s].
Proof. intros H. unfold printed. now rewrite H. Qed.

Lemma format_text_to_table_run text h :
  format_text_to_table text h = (Ok (table_of text), h ++ table_log text).
Proof.
  unfold format_text_to_table, table_of, table_log. run_calls.
  destruct (format_body text) as [t|e] eqn:E; [now rewrite app_nil_r|].
  rewrite print_plain; [reflexivity|].
  now rewrite has_surrogate_app, (format_body_raise_plain text e E).
Qed.

Lemma values_loop now table : forall acc,
  fold_left (fun values row => values ++ [VStr now :: row]) table acc
  = acc ++ map (cons (VStr now)) table.
Proof.
  induction table as [|row rows IH]; intros acc; cbn [fold_left map].
  - now rewrite app_nil_r.
  - now rewrite IH, <- app_assoc.
Qed.

(** The line printed after a request that returned can be printed. *)
Lemma save_message_plain result :
  has_surrogate (save_message (Ok result)) = false.
Proof.
  destruct result as [cells|]; cbn [save_message updated_cells].
  - now rewrite has_surrogate_app, str_of_cells_plain.
  - reflexivity.
Qed.

(** The outcome and the events of [save_to_spreadsheet]. *)
Lemma save_to_spreadsheet_run w text sid rng h :
  save_to_spreadsheet w text sid rng h
  = (save_result w text sid rng h, h ++ save_events w text sid rng h).
Proof.
  unfold save_to_spreadsheet, save_events, save_result,
    get_google_sheets_service, auth_failure_line, save_message, updated_cells.
  (* the literals, as strings that can be printed *)
  set (SAVE := lit "スプレッドシートへの保存中にエラーが発生しました: ").
  set (AUTH := lit "認証エラーが発生しました: ").
  set (CELLS := lit " セルが更新されました").
  set (NOGET := Exn AttributeError (lit "'NoneType' object has no attribute 'get'")).
  assert (HS : has_surrogate SAVE = false) by reflexivity.
  assert (HC : has_surrogate CELLS = false) by reflexivity.
  assert (HN : has_surrogate (str_of_exn NOGET) = false) by reflexivity.
  clearbody SAVE AUTH CELLS NOGET.
  run_calls.
  destruct (sheets_auth w h) as [[]|e]; cbv iota beta.
  - rewrite format_text_to_table_run, values_loop. cbn [app].
    fold (sheet_values (now_strftime w ((h ++ [EvSheetsAuth]) ++ table_log text))
            (table_of text)).
    generalize (sheet_values
                  (now_strftime w ((h ++ [EvSheetsAuth]) ++ table_log text))
                  (table_of text)).
    intros values.
    destruct (append_execute w ((h ++ [EvSheetsAuth]) ++ table_log text)
                sid rng values) as [[cells|]|e]; cbv iota beta.
    + assert (Hp : has_surrogate (str_of_cells cells ++ CELLS) = false)
        by now rewrite has_surrogate_app, str_of_cells_plain.
      rewrite (print_plain _ _ Hp), (print_result_plain _ Hp),
        (printed_plain _ Hp).
      f_equal. now rewrite <- !app_assoc.
    + assert (Hp : has_surrogate (SAVE ++ str_of_exn NOGET) = false)
        by now rewrite has_surrogate_app, HS.
      rewrite (print_plain _ _ Hp), (print_result_plain _ Hp),
        (printed_plain _ Hp).
      f_equal. now rewrite <- !app_assoc.
    + rewrite print_run. f_equal. now rewrite <- !app_assoc.
  - rewrite print_run. unfold print_result, printed.
    destruct (has_surrogate (AUTH ++ str_of_exn e)).
    + assert (Hp : has_surrogate
                     (SAVE ++ str_of_exn (unicode_encode_error (AUTH ++ str_of_exn e)))
                   = false).
      { rewrite has_surrogate_app, HS. apply encode_error_message_plain. }
      rewrite (print_plain _ _ Hp). rewrite app_nil_r.
      f_equal. now rewrite <- app_assoc.
    + f_equal. now rewrite <- !app_assoc.
Qed.
Lemma since_app h new : since (length h) (h ++ new) = new.
Proof.
  unfold since. rewrite skipn_app, skipn_all, Nat.sub_diag. reflexivity.
Qed.

Lemma appended_app a b : appended (a ++ b) = appended a ++ appended b.
Proof.
  induction a as [|e a IH]; [reflexivity|].
  destruct e; cbn [app appended]; now rewrite IH.
Qed.

Lemma steps_of_app a b : steps_of (a ++ b) = steps_of a ++ steps_of b.
Proof.
  induction a as [|e a IH]; [reflexivity|].
  destruct e; cbn [app steps_of]; now rewrite IH.
Qed.

Lemma appended_table_log text : appended (table_log text) = [].
Proof. unfold table_log. now destruct (format_body text). Qed.

Lemma steps_of_table_log text : steps_of (table_log text) = [].
Proof. unfold table_log. now destruct (format_body text). Qed.

Lemma appended_printed s : appended (printed s) = [].
Proof. unfold printed. now destruct (has_surrogate s). Qed.

Lemma steps_of_printed s : steps_of (printed s) = [].
Proof. unfold printed. now destruct (has_surrogate s). Qed.

Create Rewrite HintDb trace.

#[local] Hint Rewrite since_app appended_app steps_of_app
  appended_table_log steps_of_table_log appended_printed steps_of_printed
  : trace.

(** The one request [save_to_spreadsheet] sends, when it sends one. *)
Lemma appended_save_events w text sid rng h :
  appended (save_events w text sid rng h)
  = match sheets_auth w h with
    | Ok _ =>
        [sheet_values (now_strftime w ((h ++ [EvSheetsAuth]) ++ table_log text))
           (table_of text)]
    | Raise _ => []
    end.
Proof.
  unfold save_events. destruct (sheets_auth w h); [|reflexivity].
  now autorewrite with trace.
Qed.

Lemma header_labels table_data :
  header_of table_data
  = timestamp_label :: map column_label (seq 1 (length (hd [] table_data))).
Proof.
  unfold header_of, timestamp_label. f_equal.
  replace (match table_data with row0 :: _ => length row0 | [] => 0 end)
    with (length (hd [] table_data)) by now destruct table_data.
  rewrite <- seq_shift, map_map. apply map_ext. intros i.
  unfold column_label. now rewrite Nat.add_1_r.
Qed.

(** ** Claims on [save_to_spreadsheet] *)

(** C3.  The data rows of the request [save_to_spreadsheet] sends, the
    rows after the header, are the rows [format_text_to_table] returns for
    the text, in the same order, each with the time string in front.  One
    request is sent when the service object is obtained, none otherwise. *)
Theorem data_rows_are_timestamped_table (w : world) (text : pyval)
    (spreadsheet_id range_name : str) (h : history) :
  let formatted := format_text_to_table text (h ++ [EvSheetsAuth]) in
  let current_time := now_strftime w (snd formatted) in
  exists table_data,
    fst formatted = Ok table_data
    /\ map (@tl (list pyval))
         (appended
            (since (length h)
               (snd (save_to_spreadsheet w text spreadsheet_id range_name h))))
       = match sheets_auth w h with
         | Ok _ => [map (cons (VStr current_time)) table_data]
         | Raise _ => []
         end.
Proof.
  cbv zeta. exists (table_of text).
  rewrite format_text_to_table_run, save_to_spreadsheet_run. cbn [fst snd].
  split; [reflexivity|].
  rewrite since_app, appended_save_events.
  now destruct (sheets_auth w h).
Qed.

(** C10.  The request starts with exactly one header row: the time label,
    then one numbered label per column of the first row of the table, and
    no column label when the table is empty; the data rows follow.  Later
    rows can be longer or shorter than the header allows for. *)
Theorem header_row_follows_first_row :
  (forall (w : world) (text : pyval) (spreadsheet_id range_name : str)
          (h : history),
     let formatted := format_text_to_table text (h ++ [EvSheetsAuth]) in
     let current_time := now_strftime w (snd formatted) in
     exists table_data,
       fst formatted = Ok table_data
       /\ appended
            (since (length h)
               (snd (save_to_spreadsheet w text spreadsheet_id range_name h)))
          = match sheets_auth w h with
            | Ok _ =>
                [(timestamp_label
                  :: map column_label (seq 1 (length (hd [] table_data))))
                 :: map (cons (VStr current_time)) table_data]
            | Raise _ => []
            end)
  /\ header_of [] = [timestamp_label]
  /\ (let table_data := table_of (VStr [97; 10; 98; 9; 99]%N) in
      header_of table_data = [timestamp_label; column_label 1]
      /\ map (@length pyval) table_data = [1; 2])
  /\ (let table_data := table_of (VStr [97; 9; 98; 10; 99]%N) in
      header_of table_data = [timestamp_label; column_label 1; column_label 2]
      /\ map (@length pyval) table_data = [2; 1]).
Proof.
  split; [|repeat split; reflexivity].
  intros w text sid rng h. cbv zeta. exists (table_of text).
  rewrite format_text_to_table_run, save_to_spreadsheet_run. cbn [fst snd].
  split; [reflexivity|].
  rewrite since_app, appended_save_events.
  destruct (sheets_auth w h); [|reflexivity].
  unfold sheet_values. now rewrite header_labels.
Qed.

(** ** Runs of the handler *)

Lemma extract_text_from_image_run w path h :
  extract_text_from_image w path h
  = (Ok (extracted (generate_content w h path)), h ++ [EvVision path]).
Proof.
  unfold extract_text_from_image, extracted. run_calls.
  now destruct (generate_content w h path).
Qed.

(** The outcome and the events of the [try] block. *)
Lemma handle_image_message_try_run w ev h :
  handle_image_message_try w ev h
  = let mid := message_id ev in
    let h1 := h ++ [EvGetMessageContent mid] in
    match get_message_content w h mid with
    | Raise e => (Raise e, h1)
    | Ok content =>
        let path := path_join SAVE_DIR (uuid4 w h1 ++ lit ".jpg") in
        let h2 := h1 ++ [EvSaveImage path content] in
        match save_image w h1 path content with
        | Raise e => (Raise e, h2)
        | Ok _ =>
            let text := extracted (generate_content w h2 path) in
            let h3 := h2 ++ [EvVision path] in
            match getenv_SPREADSHEET_ID w with
            | Some (c :: id) =>
                let h4 := h3 ++ save_events w (VStr text) (c :: id) RANGE_NAME h3 in
                match save_result w (VStr text) (c :: id) RANGE_NAME h3 with
                | Ok _ =>
                    (reply_message w h4 (reply_token ev) (REPLY_SAVED text),
                     h4 ++ [EvReply (reply_token ev) (REPLY_SAVED text)])
                | Raise e => (Raise e, h4)
                end
            | _ =>
                let msg := lit "スプレッドシートIDが設定されていません。" in
                (reply_message w h3 (reply_token ev) msg,
                 h3 ++ [EvReply (reply_token ev) msg])
            end
        end
    end.
Proof.
  unfold handle_image_message_try, reply. run_calls. cbv zeta.
  destruct (get_message_content w h (message_id ev)) as [content|e];
    [|reflexivity].
  destruct (save_image w _ _ content) as [[]|e]; [|reflexivity].
  rewrite extract_text_from_image_run.
  destruct (getenv_SPREADSHEET_ID w) as [[|c id]|]; try reflexivity.
  rewrite save_to_spreadsheet_run.
  now destruct (save_result w _ (c :: id) RANGE_NAME _) as [[]|e].
Qed.

Lemma handle_image_message_run w ev h :
  handle_image_message w ev h
  = match handle_image_message_try w ev h with
    | (Ok a, h1) => (Ok a, h1)
    | (Raise e, h1) =>
        (reply_message w h1 (reply_token ev) (REPLY_ERROR e),
         h1 ++ [EvReply (reply_token ev) (REPLY_ERROR e)])
    end.
Proof. reflexivity. Qed.

(** ** Claims on the handler and the endpoint *)



Lemma table_of_str_plain s h :
  format_text_to_table (VStr s) h = (Ok (table_of (VStr s)), h).
Proof.
  rewrite format_text_to_table_run, table_log_str. now rewrite app_nil_r.
Qed.




(** C5, as amended.  When the request has no signature header the lookup
    raises [KeyError] before anything is logged, and the exception leaves
    the endpoint.  When the signature does not fit the body the endpoint
    aborts with status 400 and no handler runs.  When it fits, the endpoint
    returns ['OK'] if the handling returns; an exception raised during the
    handling leaves the endpoint, as the abort with status 400 when it is an
    [InvalidSignatureError] and unchanged otherwise. *)
Theorem callback_result (w : world) (req : request) (h : history) :
  callback w req h
  = match header_signature req with
    | None => (Raise (Exn KeyError (lit "'HTTP_X_LINE_SIGNATURE'")), h)
    | Some signature =>
        let body := data req in
        let h0 := h ++ [EvLog (lit "Request body: " ++ body)] in
        if validate_signature w body signature then
          match handler_handle w body signature h0 with
          | (Ok _, h1) => (Ok (lit "OK"), h1)
          | (Raise e, h1) =>
              if is_InvalidSignatureError (exn_class_of e)
              then (Raise (Exn (HTTPException 400) []), h1)
              else (Raise e, h1)
          end
        else (Raise (Exn (HTTPException 400) []), h0)
    end.
Proof.
  unfold callback, headers_signature, abort. run_calls.
  destruct (header_signature req) as [signature|]; [|reflexivity].
  cbv zeta.
  destruct (validate_signature w (data req) signature) eqn:V.
  - destruct (handler_handle w (data req) signature _)
      as [[[]|e] h1]; [reflexivity|].
    now destruct (is_InvalidSignatureError (exn_class_of e)).
  - unfold handler_handle. rewrite V. reflexivity.
Qed.

(** C5, as stated, fails for a request whose signature fits when the reply
    is refused: the exception leaves the handler and the endpoint, which
    does not return ['OK']. *)
Lemma callback_propagates_handler_failure :
  header_signature Sample.req0 = Some (lit "c2lnbmF0dXJl")
  /\ validate_signature Sample.reply_refused (data Sample.req0)
       (lit "c2lnbmF0dXJl") = true
  /\ fst (callback Sample.reply_refused Sample.req0 [])
     = Raise (Exn LineBotApiError (lit "Invalid reply token"))
  /\ fst (callback Sample.reply_refused Sample.req0 []) <> Ok (lit "OK").
Proof. repeat split; try reflexivity. vm_compute. discriminate. Qed.
(** * Further properties *)

(** ** Lines and surrounding whitespace *)

Lemma split_char_nonempty sep s : split_char sep s <> [].
Proof.
  destruct s as [|c t]; cbn [split_char]; [easy|].
  destruct (c =? sep)%N; [easy|]. now destruct (split_char sep t).
Qed.

(** [(s1 + sep + s2).split(sep) == s1.split(sep) + s2.split(sep)] *)
Lemma split_char_app sep s1 s2 :
  split_char sep (s1 ++ sep :: s2) = split_char sep s1 ++ split_char sep s2.
Proof.
  induction s1 as [|c t IH]; cbn [app split_char].
  - now rewrite N.eqb_refl.
  - destruct (c =? sep)%N; rewrite IH; [reflexivity|].
    pose proof (split_char_nonempty sep t) as Hne.
    now destruct (split_char sep t).
Qed.

Lemma table_direct_app s1 s2 :
  table_direct (s1 ++ NL :: s2) = table_direct s1 ++ table_direct s2.
Proof.
  unfold table_direct. now rewrite split_char_app, filter_app, map_app.
Qed.

(** A whitespace character in front of the text changes no row. *)
Lemma table_direct_cons_space c s :
  is_space c = true -> table_direct (c :: s) = table_direct s.
Proof.
  intros E. unfold table_direct. cbn [split_char].
  destruct (c =? NL)%N.
  - cbn [filter]. reflexivity.
  - pose proof (split_char_nonempty NL s) as Hne.
    destruct (split_char NL s) as [|l ls]; [easy|].
    cbn [filter]. unfold nonblank. rewrite (strip_cons_space c l E).
    destruct (truthy (strip l)); [|reflexivity].
    cbn [map]. now rewrite (strip_cons_space c l E).
Qed.

Lemma table_direct_app_blank_l ws s :
  blank ws -> table_direct (ws ++ s) = table_direct s.
Proof.
  induction ws as [|c t IH]; intros H; [reflexivity|].
  unfold blank in H. cbn [forallb] in H. apply andb_prop in H as [Hc Ht].
  cbn [app]. rewrite (table_direct_cons_space c (t ++ s) Hc). now apply IH.
Qed.

Lemma table_direct_blank ws : blank ws -> table_direct ws = [].
Proof.
  intros H. rewrite <- (app_nil_r ws). now rewrite table_direct_app_blank_l.
Qed.

(** The lines of a text that ends in [ws]: the last line is longer by
    [ws], as long as [ws] holds no separator. *)
Lemma split_char_app_last sep s u :
  ~ In sep u ->
  exists init lst,
    split_char sep s = init ++ [lst] /\
    split_char sep (s ++ u) = init ++ [lst ++ u].
Proof.
  intros Hu. induction s as [|c t (init & lst & H1 & H2)].
  - exists [], []. cbn [app]. now rewrite (split_char_absent sep u Hu).
  - cbn [app split_char]. rewrite H1, H2.
    destruct (c =? sep)%N.
    + now exists ([] :: init), lst.
    + destruct init as [|i0 init]; cbn [app].
      * now exists [], (c :: lst).
      * now exists ((c :: i0) :: init), lst.
Qed.

Lemma table_direct_app_blank_r s ws :
  blank ws -> table_direct (s ++ ws) = table_direct s.
Proof.
  revert s. induction ws as [|c t IH] using rev_ind; intros s H.
  - now rewrite app_nil_r.
  - unfold blank in H. rewrite forallb_app in H.
    apply andb_prop in H as [Ht Hc]. cbn [forallb] in Hc.
    rewrite andb_true_r in Hc.
    rewrite app_assoc.
    destruct (N.eq_dec c NL) as [->|Hn].
    + change ((s ++ t) ++ [NL]) with ((s ++ t) ++ NL :: []).
      rewrite table_direct_app, (IH s Ht).
      change (table_direct []) with (@nil (list str)). apply app_nil_r.
    + rewrite <- (IH s Ht).
      destruct (split_char_app_last NL (s ++ t) [c]) as (init & lst & H1 & H2).
      { intros [E|[]]. now apply Hn. }
      unfold table_direct. rewrite H1, H2, !filter_app, !map_app. f_equal.
      cbn [filter]. unfold nonblank.
      assert (Hb : blank [c]) by (unfold blank; cbn [forallb]; now rewrite Hc).
      rewrite (strip_app_blank lst [c] Hb).
      destruct (truthy (strip lst)); [|reflexivity].
      cbn [map]. now rewrite (strip_app_blank lst [c] Hb).
Qed.

Lemma table_direct_cons_nonspace c s :
  is_space c = false -> table_direct (c :: s) <> [].
Proof.
  intros E. unfold table_direct. cbn [split_char].
  destruct (c =? NL)%N eqn:En.
  { apply N.eqb_eq in En. subst c. discriminate E. }
  pose proof (split_char_nonempty NL s) as Hne.
  destruct (split_char NL s) as [|l ls]; [easy|].
  cbn [filter]. unfold nonblank. rewrite (strip_cons_nonspace c l E).
  discriminate.
Qed.

Lemma table_direct_nil_iff s : table_direct s = [] <-> blank s.
Proof.
  split; [|apply table_direct_blank].
  induction s as [|c t IH]; intros H; [reflexivity|].
  destruct (is_space c) eqn:E.
  - rewrite (table_direct_cons_space c t E) in H.
    unfold blank. cbn [forallb]. rewrite E. now apply IH.
  - now apply table_direct_cons_nonspace in H.
Qed.

(** *** What a token cannot hold *)

Lemma split_sep_first_head t :
  head_is_space (hd [] (split_sep false t)) = true -> head_is_space t = true.
Proof.
  destruct t as [|d u]; [easy|]. cbn [split_sep andb].
  destruct (d =? TAB)%N; [easy|].
  destruct (is_space d && head_is_space u); [easy|].
  now destruct (split_sep false u).
Qed.

Lemma split_sep_no_separator s : forall b,
  Forall (fun p => no_separator p = true) (split_sep b s).
Proof.
  induction s as [|c t IH]; intros b; [now repeat constructor|].
  cbn [split_sep].
  destruct (b && is_space c); [apply IH|].
  destruct (c =? TAB)%N eqn:Et; [constructor; [reflexivity|apply IH]|].
  destruct (is_space c && head_is_space t) eqn:Ec;
    [constructor; [reflexivity|apply IH]|].
  pose proof (IH false) as Hf. pose proof (split_sep_first_head t) as Hh.
  destruct (split_sep false t) as [|h r].
  - constructor; [|constructor]. cbn [no_separator head_is_space].
    now rewrite Et, andb_false_r.
  - inversion Hf as [|? ? Hp Hr]; subst. constructor; [|exact Hr].
    cbn [no_separator]. rewrite Et, Hp. cbn [negb andb]. rewrite andb_true_r.
    cbn [hd] in Hh.
    destruct (is_space c); [|reflexivity]. cbn [andb] in *.
    destruct (head_is_space h); [|reflexivity].
    now rewrite Hh in Ec.
Qed.

Lemma no_separator_app_r a b :
  no_separator (a ++ b) = true -> no_separator b = true.
Proof.
  induction a as [|c t IH]; [easy|]. cbn [app no_separator].
  intros H. apply andb_prop in H as [_ H]. now apply IH.
Qed.

Lemma no_separator_app_l a b :
  no_separator (a ++ b) = true -> no_separator a = true.
Proof.
  induction a as [|c t IH]; [easy|]. cbn [app no_separator].
  intros H. apply andb_prop in H as [H Ht]. apply andb_prop in H as [H1 H2].
  rewrite H1, (IH Ht), andb_true_r. cbn [andb].
  destruct t as [|d u]; [|exact H2].
  cbn [head_is_space]. now rewrite andb_false_r.
Qed.

(** [strip] cuts whitespace off both ends. *)
Lemma strip_split s :
  exists a b, blank a /\ blank b /\ s = a ++ strip s ++ b.
Proof.
  destruct (lstrip_suffix s) as [a [Ha Hs]].
  destruct (rstrip_split (lstrip s)) as [b [Hb Hl]].
  exists a, b. repeat split; auto. unfold strip. now rewrite <- Hl.
Qed.

Lemma no_separator_strip s : no_separator s = true -> no_separator (strip s) = true.
Proof.
  destruct (strip_split s) as (a & b & _ & _ & Hs). intros H.
  rewrite Hs in H. apply no_separator_app_r in H. now apply no_separator_app_l in H.
Qed.

Lemma In_strip c s : In c (strip s) -> In c s.
Proof.
  destruct (strip_split s) as (a & b & _ & _ & Hs). intros H.
  rewrite Hs, !in_app_iff. auto.
Qed.

Lemma split_sep_sub s : forall b,
  Forall (fun p => forall c, In c p -> In c s) (split_sep b s).
Proof.
  induction s as [|c t IH]; intros b; [now repeat constructor|].
  assert (Hw : forall pieces,
             Forall (fun p => forall d, In d p -> In d t) pieces ->
             Forall (fun p => forall d, In d p -> In d (c :: t)) pieces).
  { intros pieces. apply Forall_impl. intros p Hp d Hd. right. auto. }
  cbn [split_sep].
  destruct (b && is_space c); [apply Hw, IH|].
  destruct (c =? TAB)%N; [constructor; [easy|apply Hw, IH]|].
  destruct (is_space c && head_is_space t); [constructor; [easy|apply Hw, IH]|].
  pose proof (IH false) as Hf.
  destruct (split_sep false t) as [|h r].
  - constructor; [|constructor]. intros d [<-|[]]. now left.
  - inversion Hf as [|? ? Hp Hr]; subst. constructor; [|now apply Hw].
    intros d [<-|Hd]; [now left | right; auto].
Qed.

Lemma split_char_no_sep sep s :
  Forall (fun l => ~ In sep l) (split_char sep s).
Proof.
  induction s as [|c t IH]; [now repeat constructor|].
  cbn [split_char]. destruct (c =? sep)%N eqn:E; [constructor; [easy|exact IH]|].
  destruct (split_char sep t) as [|l ls].
  - constructor; [|constructor]. intros [->|[]]. now rewrite N.eqb_refl in E.
  - inversion IH as [|? ? Hl Hls]; subst. constructor; [|exact Hls].
    intros [->|H]; [now rewrite N.eqb_refl in E | auto].
Qed.

(** The tokens of [table_direct]. *)
Lemma table_direct_tokens s :
  Forall (Forall (fun tok => no_separator tok = true /\ ~ In NL tok))
    (table_direct s).
Proof.
  unfold table_direct. apply Forall_map, Forall_forall. intros l Hl.
  apply filter_In in Hl as [Hl _].
  pose proof (split_char_no_sep NL s) as Hnl.
  rewrite Forall_forall in Hnl. specialize (Hnl l Hl).
  unfold columns_of. apply Forall_map, Forall_forall. intros p Hp.
  apply filter_In in Hp as [Hp _].
  rewrite <- split_sep_re_split in Hp.
  pose proof (split_sep_no_separator (strip l) false) as H1.
  pose proof (split_sep_sub (strip l) false) as H2.
  rewrite Forall_forall in H1, H2. split.
  - apply no_separator_strip. now apply H1.
  - intros Hin. apply Hnl. apply In_strip. apply (H2 p Hp). now apply In_strip.
Qed.

(** *** Writing the table back *)

Lemma join_cons sep p q rest :
  join sep (p :: q :: rest) = p ++ sep ++ join sep (q :: rest).
Proof. reflexivity. Qed.

(** A token in front of a tab is split off whole. *)
Lemma re_split_token_tab t rest :
  no_separator t = true ->
  head_is_space (rev t) = false ->
  re_split SEP (t ++ TAB :: rest) = t :: re_split SEP rest.
Proof.
  induction t as [|c u IH]; intros Hs Hr.
  - cbn [app]. rewrite re_split_cons. now rewrite N.eqb_refl.
  - cbn [no_separator] in Hs.
    apply andb_prop in Hs as [Hs Hu]. apply andb_prop in Hs as [H1 H2].
    apply negb_true_iff in H1, H2. apply rev_cons_head in Hr.
    cbn [app]. rewrite re_split_cons, H1.
    destruct u as [|d v].
    + pose proof (IH Hu eq_refl) as IH'. cbn [app] in IH'.
      cbn [app head_is_space]. rewrite Hr. cbn [andb].
      rewrite IH'. reflexivity.
    + pose proof (IH Hu Hr) as IH'. cbn [app] in IH'.
      cbn [app head_is_space] in *. rewrite H2, IH'. reflexivity.
Qed.

Lemma re_split_join_tab toks :
  Forall cell_like toks -> toks <> [] ->
  re_split SEP (join [TAB] toks) = toks.
Proof.
  induction 1 as [|t rest (Hne & Htr & Hs & Hnl) Hrest IH]; intros H; [easy|].
  destruct rest as [|q rest].
  - cbn [join]. now apply re_split_no_separator.
  - rewrite join_cons. cbn [app].
    rewrite (re_split_token_tab t _ Hs (proj2 Htr)).
    f_equal. apply IH. discriminate.
Qed.

Lemma columns_of_cells toks : Forall cell_like toks -> columns_of toks = toks.
Proof.
  induction 1 as [|t rest (Hne & Htr & _) _ IH]; [reflexivity|].
  unfold columns_of in *. cbn [filter]. unfold nonblank at 1.
  rewrite (strip_fix t Htr).
  destruct t as [|c u]; [easy|]. cbn [truthy map].
  now rewrite (strip_fix (c :: u) Htr), IH.
Qed.

Lemma join_tab_no_newline toks :
  Forall cell_like toks -> ~ In NL (join [TAB] toks).
Proof.
  induction 1 as [|t rest (_ & _ & _ & Hnl) Hrest IH]; [easy|].
  destruct rest as [|q rest]; [exact Hnl|].
  rewrite join_cons. cbn [app]. rewrite in_app_iff.
  intros [H|[H|H]]; [auto | discriminate H | auto].
Qed.

Lemma join_tab_nonblank toks :
  Forall cell_like toks -> toks <> [] -> nonblank (join [TAB] toks) = true.
Proof.
  intros H Hne. destruct H as [|t rest (Ht & [Hh _] & _) _]; [easy|].
  destruct t as [|c u]; [easy|]. cbn [head_is_space] in Hh.
  unfold nonblank.
  destruct rest as [|q rest]; [cbn [join]|rewrite join_cons; cbn [app]];
    now rewrite (strip_cons_nonspace c _ Hh).
Qed.

(** One written row is read back as that row. *)
Lemma table_direct_row toks :
  Forall cell_like toks -> toks <> [] ->
  table_direct (join [TAB] toks) = [toks].
Proof.
  intros H Hne. unfold table_direct.
  rewrite (split_char_absent NL _ (join_tab_no_newline toks H)).
  cbn [filter]. rewrite (join_tab_nonblank toks H Hne). cbn [map].
  now rewrite columns_strip, (re_split_join_tab toks H Hne), columns_of_cells.
Qed.

Lemma table_direct_render rows :
  Forall (fun row => row <> [] /\ Forall cell_like row) rows ->
  table_direct (render rows) = rows.
Proof.
  unfold render.
  induction 1 as [|row rest [Hne Hrow] Hrest IH]; [reflexivity|].
  destruct rest as [|row2 rest].
  - cbn [map join]. now apply table_direct_row.
  - cbn [map] in *. rewrite join_cons. cbn [app].
    rewrite table_direct_app, (table_direct_row row Hrow Hne), IH.
    reflexivity.
Qed.

(** The rows of [table_direct] are rows of cells. *)
Lemma table_direct_cells s :
  Forall (fun row => row <> [] /\ Forall cell_like row) (table_direct s).
Proof.
  pose proof (table_direct_tokens s) as Ht.
  unfold table_direct in *. rewrite Forall_map in *.
  rewrite Forall_forall in *. intros l Hl. specialize (Ht l Hl).
  apply filter_In in Hl as [_ Hl]. split.
  - pose proof (columns_of_nonblank l Hl) as H. intros E. now rewrite E in H.
  - unfold columns_of in *. rewrite Forall_map in *.
    rewrite Forall_forall in *. intros p Hp. specialize (Ht p Hp).
    apply filter_In in Hp as [_ Hp]. unfold cell_like.
    split; [now apply strip_nonempty|]. split; [apply strip_trimmed|exact Ht].
Qed.

(** ** Further properties of [format_text_to_table] *)

(** X1.  The table is empty exactly for a text of whitespace only (the
    empty text included). *)
Theorem empty_table_iff_blank (s : str) (h : history) :
  fst (format_text_to_table (VStr s) h) = Ok [] <-> blank s.
Proof.
  rewrite format_text_to_table_str. cbn [fst].
  rewrite <- table_direct_nil_iff. split.
  - intros H. injection H as H. now apply map_eq_nil in H.
  - now intros ->.
Qed.

(** X2.  No token returned holds a tab, a newline, or two whitespace
    characters next to each other. *)
Theorem tokens_hold_no_separator (s : str) (h : history) :
  exists rows,
    format_text_to_table (VStr s) h = (Ok (map (map VStr) rows), h)
    /\ Forall (Forall (fun tok => no_separator tok = true /\ ~ In NL tok)) rows.
Proof.
  exists (table_direct s).
  split; [apply format_text_to_table_str | apply table_direct_tokens].
Qed.

(** X3.  The text is read line by line: the table of two texts joined by
    a newline is the table of the first followed by the table of the
    second. *)
Theorem rows_line_by_line (s1 s2 : str) (h : history) :
  exists rows1 rows2,
    format_text_to_table (VStr s1) h = (Ok rows1, h)
    /\ format_text_to_table (VStr s2) h = (Ok rows2, h)
    /\ format_text_to_table (VStr (s1 ++ NL :: s2)) h = (Ok (rows1 ++ rows2), h).
Proof.
  exists (map (map VStr) (table_direct s1)), (map (map VStr) (table_direct s2)).
  rewrite !format_text_to_table_str, table_direct_app, map_app. auto.
Qed.

(** X4.  Whitespace before and after the text, newlines included, changes
    nothing. *)
Theorem surrounding_whitespace_ignored (ws1 s ws2 : str) (h : history) :
  blank ws1 -> blank ws2 ->
  format_text_to_table (VStr (ws1 ++ s ++ ws2)) h
  = format_text_to_table (VStr s) h.
Proof.
  intros H1 H2. rewrite !format_text_to_table_str.
  now rewrite (table_direct_app_blank_l ws1 _ H1),
    (table_direct_app_blank_r s ws2 H2).
Qed.

Lemma surrounding_whitespace_ignored_witness :
  let ws1 := [10; 32; 0x3000]%N in
  let s := [97; 9; 98]%N in
  let ws2 := [32; 13; 10; 10]%N in
  (blank ws1 /\ blank ws2)
  /\ format_text_to_table (VStr (ws1 ++ s ++ ws2)) []
     = format_text_to_table (VStr s) [].
Proof.
  cbv zeta. split; [split; reflexivity|].
  apply (surrounding_whitespace_ignored [10; 32; 0x3000]%N [97; 9; 98]%N
           [32; 13; 10; 10]%N []); reflexivity.
Defined.

(** X5.  Lines ended by carriage return and newline give the table of the
    lines ended by newline alone. *)
Theorem carriage_return_line_ends (s1 s2 : str) (h : history) :
  format_text_to_table (VStr (s1 ++ [13; 10]%N ++ s2)) h
  = format_text_to_table (VStr (s1 ++ [10]%N ++ s2)) h.
Proof.
  rewrite !format_text_to_table_str. do 3 f_equal.
  change (s1 ++ [13; 10]%N ++ s2) with (s1 ++ 13%N :: NL :: s2).
  change (s1 ++ [10]%N ++ s2) with (s1 ++ NL :: s2).
  replace (s1 ++ 13%N :: NL :: s2) with ((s1 ++ [13%N]) ++ NL :: s2)
    by now rewrite <- app_assoc.
  rewrite !table_direct_app. f_equal.
  now apply table_direct_app_blank_r.
Qed.

(** X6.  A table of cells written as text, the cells of a row separated
    by tabs and the rows by newlines, is read back as the same table. *)
Theorem written_table_reads_back (rows : list (list str)) (h : history) :
  Forall (fun row => row <> [] /\ Forall cell_like row) rows ->
  format_text_to_table (VStr (render rows)) h = (Ok (map (map VStr) rows), h).
Proof.
  intros H. rewrite format_text_to_table_str.
  now rewrite (table_direct_render rows H).
Qed.

Lemma written_table_reads_back_witness :
  let rows := [[[97; 32; 98]; [99]]; [[100]]]%N in
  Forall (fun row => row <> [] /\ Forall cell_like row) rows
  /\ format_text_to_table (VStr [97; 32; 98; 9; 99; 10; 100]%N) []
     = (Ok (map (map VStr) rows), []).
Proof.
  cbv zeta.
  assert (H : Forall (fun row => row <> [] /\ Forall cell_like row)
                [[[97; 32; 98]; [99]]; [[100]]]%N).
  { repeat (apply Forall_cons || apply Forall_nil || split);
      try discriminate; try reflexivity;
      intros Hin; cbn in Hin; intuition discriminate. }
  split; [exact H|].
  exact (written_table_reads_back [[[97; 32; 98]; [99]]; [[100]]]%N [] H).
Defined.

(** X7.  Formatting is stable: the table returned for a text, written
    back with tabs and newlines and formatted again, is returned
    unchanged. *)
Theorem formatting_is_stable (s : str) (h : history) :
  exists rows,
    format_text_to_table (VStr s) h = (Ok (map (map VStr) rows), h)
    /\ format_text_to_table (VStr (render rows)) h
       = (Ok (map (map VStr) rows), h).
Proof.
  exists (table_direct s). rewrite !format_text_to_table_str.
  now rewrite (table_direct_render _ (table_direct_cells s)).
Qed.

(** ** More on [save_to_spreadsheet] *)

Lemma digits_go_app f : forall n acc,
  digits_go f n acc = digits_go f n [] ++ acc.
Proof.
  induction f as [|f IH]; intros n acc; [reflexivity|].
  cbn [digits_go]. destruct (n <? 10)%N; [reflexivity|].
  rewrite (IH _ (_ :: acc)), (IH _ [_]), <- app_assoc. reflexivity.
Qed.

Lemma decimal_value_snoc s d :
  decimal_value (s ++ [d]) = (10 * decimal_value s + (d - 48))%N.
Proof. unfold decimal_value. now rewrite fold_left_app. Qed.

Lemma digits_go_value f : forall n,
  (n < 2 ^ N.of_nat f)%N -> decimal_value (digits_go f n []) = n.
Proof.
  induction f as [|f IH]; intros n Hn.
  - change (2 ^ N.of_nat 0)%N with 1%N in Hn.
    assert (n = 0%N) by lia. now subst.
  - cbn [digits_go]. destruct (n <? 10)%N eqn:E.
    + apply N.ltb_lt in E. unfold decimal_value. cbn [fold_left].
      rewrite (N.mod_small n 10 E). clear Hn IH. lia.
    + rewrite digits_go_app, decimal_value_snoc, IH.
      * assert (Hd : n = (10 * (n / 10) + n mod 10)%N)
          by (apply N.div_mod; discriminate).
        rewrite N.add_comm with (n := 48%N), N.add_sub. now symmetry.
      * rewrite Nat2N.inj_succ, N.pow_succ_r' in Hn.
        apply N.Div0.div_lt_upper_bound.
        set (p := (2 ^ N.of_nat f)%N) in *. lia.
Qed.

(** [int(str(n)) == n] *)
Lemma decimal_value_str_of_N n : decimal_value (str_of_N n) = n.
Proof.
  unfold str_of_N. apply digits_go_value.
  rewrite Nat2N.inj_succ, N2Nat.id.
  destruct n as [|p]; [reflexivity|].
  apply N.log2_spec. reflexivity.
Qed.

Lemma column_label_inj j k : column_label j = column_label k -> j = k.
Proof.
  unfold column_label. intros H. injection H as H.
  apply (f_equal decimal_value) in H.
  rewrite !decimal_value_str_of_N in H. now apply Nat2N.inj.
Qed.

Lemma NoDup_map_injective {A B} (f : A -> B) l :
  (forall x y, f x = f y -> x = y) -> NoDup l -> NoDup (map f l).
Proof.
  intros Hf. induction 1 as [|x l Hx _ IH]; cbn [map]; constructor; auto.
  intros Hin. apply in_map_iff in Hin as [y [Hy Hin]].
  apply Hf in Hy. now subst.
Qed.

(** X11.  The cells of the header row are pairwise distinct, whatever the
    table: the time label, then the column labels numbered in decimal. *)
Theorem header_cells_distinct (table_data : list (list pyval)) :
  NoDup (header_of table_data).
Proof.
  rewrite header_labels. constructor.
  - intros Hin. apply in_map_iff in Hin as [k [Hk _]]. discriminate Hk.
  - apply NoDup_map_injective; [apply column_label_inj | apply seq_NoDup].
Qed.

(** How [save_to_spreadsheet] ends, case by case. *)
Lemma save_result_cases w text sid rng h :
  save_result w text sid rng h
  = match sheets_auth w h with
    | Raise _ => Ok tt
    | Ok _ =>
        let formatted := format_text_to_table text (h ++ [EvSheetsAuth]) in
        let values :=
          sheet_values (now_strftime w (snd formatted)) (table_of text) in
        match append_execute w (snd formatted) sid rng values with
        | Ok _ => Ok tt
        | Raise e =>
            print_result
              (lit "スプレッドシートへの保存中にエラーが発生しました: " ++ str_of_exn e)
        end
    end.
Proof.
  unfold save_result. destruct (sheets_auth w h); [|reflexivity].
  cbv zeta. rewrite format_text_to_table_run. cbn [snd].
  destruct (append_execute w _ sid rng _) as [result|e]; [|reflexivity].
  apply print_result_plain, save_message_plain.
Qed.

(** X8.  [save_to_spreadsheet] only adds to the history, sends one append
    request when the service object is obtained and none otherwise, and
    contacts nothing else.  It raises in one case only: the request was
    sent and failed, and the line that reports the failure cannot be
    printed; then the [print] of the [except] branch raises
    [UnicodeEncodeError] and nothing is printed.  A failed authentication,
    a failed request whose message can be printed and a result without
    ['updates'] all end normally. *)
Theorem save_to_spreadsheet_raises_only_after_request (w : world)
    (text : pyval) (spreadsheet_id range_name : str) (h : history) :
  let formatted := format_text_to_table text (h ++ [EvSheetsAuth]) in
  let values := sheet_values (now_strftime w (snd formatted)) (table_of text) in
  let run := save_to_spreadsheet w text spreadsheet_id range_name h in
  firstn (length h) (snd run) = h
  /\ steps_of (since (length h) (snd run))
     = match sheets_auth w h with
       | Ok _ => [AppendRows]
       | Raise _ => []
       end
  /\ fst run
     = match sheets_auth w h with
       | Raise _ => Ok tt
       | Ok _ =>
           match append_execute w (snd formatted) spreadsheet_id range_name
                   values with
           | Ok _ => Ok tt
           | Raise e =>
               let line :=
                 lit "スプレッドシートへの保存中にエラーが発生しました: "
                 ++ str_of_exn e in
               if has_surrogate line
               then Raise (unicode_encode_error line)
               else Ok tt
           end
       end.
Proof.
  cbv zeta. rewrite save_to_spreadsheet_run. cbn [fst snd].
  split; [|split].
  - now rewrite firstn_app, Nat.sub_diag, firstn_all, app_nil_r.
  - rewrite since_app. unfold save_events.
    destruct (sheets_auth w h); [|reflexivity].
    now autorewrite with trace.
  - apply save_result_cases.
Qed.

(** X9.  For a text of whitespace only the request is still sent when the
    service object is obtained: its values are the header row alone, and
    that row is the time label alone. *)
Theorem blank_text_appends_header_only (w : world) (s : str)
    (spreadsheet_id range_name : str) (h : history) :
  blank s ->
  sheets_auth w h = Ok tt ->
  appended
    (since (length h)
       (snd (save_to_spreadsheet w (VStr s) spreadsheet_id range_name h)))
  = [[[timestamp_label]]].
Proof.
  intros Hs Ha. rewrite save_to_spreadsheet_run. cbn [snd].
  rewrite since_app, appended_save_events, Ha, table_of_str.
  apply table_direct_nil_iff in Hs. rewrite Hs. reflexivity.
Qed.

Lemma blank_text_appends_header_only_witness :
  let s := [32; 10; 0x3000; 13; 10]%N in
  (blank s /\ sheets_auth Sample.all_fine [] = Ok tt)
  /\ appended
       (since 0
          (snd (save_to_spreadsheet Sample.all_fine (VStr s)
                  (lit "sheet-1") RANGE_NAME [])))
     = [[[VStr (lit "日時")]]].
Proof.
  cbv zeta. split; [split; reflexivity|].
  apply (blank_text_appends_header_only Sample.all_fine
           [32; 10; 0x3000; 13; 10]%N (lit "sheet-1") RANGE_NAME []);
    reflexivity.
Defined.

(** X10.  When the table is not empty and all its rows have [n] columns,
    every row of the request, the header included, has [n + 1] cells. *)
Theorem uniform_table_gives_rectangle (w : world) (text : pyval)
    (spreadsheet_id range_name : str) (h : history) (n : nat) :
  table_of text <> [] ->
  Forall (fun row => length row = n) (table_of text) ->
  Forall (Forall (fun row => length row = S n))
    (appended
       (since (length h)
          (snd (save_to_spreadsheet w text spreadsheet_id range_name h)))).
Proof.
  intros Hne Hn. rewrite save_to_spreadsheet_run. cbn [snd].
  rewrite since_app, appended_save_events.
  destruct (sheets_auth w h); [|constructor].
  constructor; [|constructor]. unfold sheet_values. constructor.
  - rewrite header_labels. cbn [length]. rewrite length_map, length_seq.
    destruct (table_of text) as [|row0 rows]; [easy|].
    inversion Hn; subst. reflexivity.
  - apply Forall_map. revert Hn. apply Forall_impl.
    intros row Hrow. cbn [length]. now rewrite Hrow.
Qed.

Lemma uniform_table_gives_rectangle_witness :
  let text := VStr [97; 9; 98; 10; 99; 32; 32; 100]%N in
  (table_of text <> [] /\ Forall (fun row => length row = 2) (table_of text))
  /\ Forall (Forall (fun row => length row = 3))
       (appended
          (since 0
             (snd (save_to_spreadsheet Sample.all_fine text
                     (lit "sheet-1") RANGE_NAME [])))).
Proof.
  cbv zeta.
  assert (H1 : table_of (VStr [97; 9; 98; 10; 99; 32; 32; 100]%N) <> [])
    by (vm_compute; discriminate).
  assert (H2 : Forall (fun row => length row = 2)
                 (table_of (VStr [97; 9; 98; 10; 99; 32; 32; 100]%N)))
    by (vm_compute; repeat constructor).
  split; [split; assumption|].
  exact (uniform_table_gives_rectangle Sample.all_fine
           (VStr [97; 9; 98; 10; 99; 32; 32; 100]%N)
           (lit "sheet-1") RANGE_NAME [] 2 H1 H2).
Defined.

(** ** More on the handler, the endpoint and the script *)

Lemma replies_app a b : replies (a ++ b) = replies a ++ replies b.
Proof.
  induction a as [|e a IH]; [reflexivity|].
  destruct e; cbn [app replies]; now rewrite IH.
Qed.

Lemma touches_sheets_app a b :
  touches_sheets (a ++ b) = touches_sheets a || touches_sheets b.
Proof.
  induction a as [|e a IH]; [reflexivity|].
  destruct e; cbn [app touches_sheets]; auto.
Qed.

Lemma replies_table_log text : replies (table_log text) = [].
Proof. unfold table_log. now destruct (format_body text). Qed.

Lemma replies_printed s : replies (printed s) = [].
Proof. unfold printed. now destruct (has_surrogate s). Qed.

Lemma steps_of_save_events w text sid rng h :
  steps_of (save_events w text sid rng h)
  = match sheets_auth w h with
    | Ok _ => [AppendRows]
    | Raise _ => []
    end.
Proof.
  unfold save_events. destruct (sheets_auth w h); [|reflexivity].
  now autorewrite with trace.
Qed.

Lemma replies_save_events w text sid rng h :
  replies (save_events w text sid rng h) = [].
Proof.
  unfold save_events. destruct (sheets_auth w h); [|reflexivity].
  now rewrite !replies_app, replies_table_log, replies_printed.
Qed.

#[local] Hint Rewrite replies_app touches_sheets_app replies_save_events
  steps_of_save_events replies_printed : trace.

(** The events of a whole call of [handle_image_message]. *)
Lemma handle_image_message_events w ev h :
  snd (handle_image_message w ev h) = h ++ handler_events w ev h.
Proof.
  rewrite handle_image_message_run, handle_image_message_try_run.
  unfold handler_events, replying, NOT_CONFIGURED. cbv zeta.
  destruct (get_message_content w h (message_id ev)) as [content|e];
    [|cbn [snd]; now rewrite <- app_assoc].
  destruct (save_image w _ _ content) as [[]|e];
    [|cbn [snd]; now rewrite <- !app_assoc].
  destruct (getenv_SPREADSHEET_ID w) as [[|c id]|];
    try destruct (save_result w _ (c :: id) RANGE_NAME _) as [[]|u];
    try match goal with
      | |- context [reply_message w ?h0 ?t0 ?m0] =>
          destruct (reply_message w h0 t0 m0) as [[]|e]
      end;
    cbn [snd]; rewrite <- ?app_assoc; cbn [app]; rewrite ?app_nil_r;
    reflexivity.
Qed.

Lemma replies_replying w h tok text :
  replies (replying w h tok text)
  = text :: match reply_message w h tok text with
            | Ok _ => []
            | Raise e => [REPLY_ERROR e]
            end.
Proof. unfold replying. now destruct (reply_message w h tok text). Qed.

Lemma steps_of_replying w h tok text :
  steps_of (replying w h tok text)
  = SendReply :: match reply_message w h tok text with
                 | Ok _ => []
                 | Raise _ => [SendReply]
                 end.
Proof. unfold replying. now destruct (reply_message w h tok text). Qed.

(** The reply of the [try] block comes last or last but one. *)
Lemma replying_ends w h tok text before :
  replies before = [] ->
  (exists before' text',
     before ++ replying w (h ++ before) tok text = before' ++ [EvReply tok text']
     /\ replies before' = [])
  \/ (exists before' text' e,
        before ++ replying w (h ++ before) tok text
        = before' ++ [EvReply tok text'; EvReply tok (REPLY_ERROR e)]
        /\ replies before' = []
        /\ reply_message w (h ++ before') tok text' = Raise e).
Proof.
  intros Hb. unfold replying.
  destruct (reply_message w (h ++ before) tok text) as [[]|e] eqn:E.
  - left. now exists before, text.
  - right. now exists before, text, e.
Qed.


(** X13.  When [SPREADSHEET_ID] is unset or empty the handler never
    contacts the spreadsheet service, and it still answers: every reply is
    the notice that the id is not set or an error message. *)
Theorem unconfigured_handler_skips_sheets (w : world) (ev : message_event)
    (h : history) :
  configured w = false ->
  let new := since (length h) (snd (handle_image_message w ev h)) in
  touches_sheets new = false
  /\ replies new <> []
  /\ Forall (fun text => text = NOT_CONFIGURED \/ exists e, text = REPLY_ERROR e)
       (replies new).
Proof.
  intros Hc. cbv zeta.
  rewrite handle_image_message_events, since_app. unfold handler_events.
  cbv zeta. unfold configured in Hc.
  assert (Hfin : forall evs,
             touches_sheets evs = false ->
             replies evs <> [] ->
             Forall (fun text => text = NOT_CONFIGURED
                                 \/ exists e, text = REPLY_ERROR e)
               (replies evs) ->
             touches_sheets evs = false
             /\ replies evs <> []
             /\ Forall (fun text => text = NOT_CONFIGURED
                                    \/ exists e, text = REPLY_ERROR e)
                  (replies evs)) by auto.
  destruct (get_message_content w h (message_id ev)) as [content|e].
  2:{ apply Hfin; cbn; [reflexivity|discriminate|].
      constructor; [eauto|constructor]. }
  destruct (save_image w _ _ content) as [[]|e].
  2:{ apply Hfin; cbn; [reflexivity|discriminate|].
      constructor; [eauto|constructor]. }
  destruct (getenv_SPREADSHEET_ID w) as [[|c id]|]; try discriminate Hc;
    unfold replying; cbn [app];
    match goal with
    | |- context [match ?x with Ok _ => _ | Raise _ => _ end] =>
        destruct x as [[]|e]
    end;
    apply Hfin; cbn; try reflexivity; try discriminate;
    repeat (apply Forall_cons || apply Forall_nil); eauto.
Qed.

Lemma unconfigured_handler_skips_sheets_witness :
  let new := since 0 (snd (handle_image_message MoreSamples.unconfigured
                             Sample.ev0 [])) in
  configured MoreSamples.unconfigured = false
  /\ touches_sheets new = false
  /\ replies new <> []
  /\ Forall (fun text => text = NOT_CONFIGURED \/ exists e, text = REPLY_ERROR e)
       (replies new).
Proof.
  cbv zeta. split; [reflexivity|].
  apply (unconfigured_handler_skips_sheets MoreSamples.unconfigured
           Sample.ev0 []).
  reflexivity.
Defined.

(** X14.  With a spreadsheet id, once the image is downloaded and saved,
    the first reply is the success message in every case but one: not the
    failure of the vision API, nor of the authentication, nor of a request
    whose error can be printed leads to an error reply.  The one case is
    the failed request whose error line cannot be printed: then
    [save_to_spreadsheet] raises and the only reply is the error reply for
    the [UnicodeEncodeError].  After the success reply an error reply
    follows exactly when the [reply_message] call of the success reply
    raised. *)
Theorem success_reply_despite_failures (w : world) (ev : message_event)
    (h : history) (spreadsheet_id : str) (content : list (list N)) :
  let mid := message_id ev in
  let tok := reply_token ev in
  let h1 := h ++ [EvGetMessageContent mid] in
  let path := path_join SAVE_DIR (uuid4 w h1 ++ lit ".jpg") in
  let h2 := h1 ++ [EvSaveImage path content] in
  let text := extracted (generate_content w h2 path) in
  let h3 := h2 ++ [EvVision path] in
  let values :=
    sheet_values (now_strftime w (h3 ++ [EvSheetsAuth]))
      (table_of (VStr text)) in
  let saving := save_to_spreadsheet w (VStr text) spreadsheet_id RANGE_NAME h3 in
  getenv_SPREADSHEET_ID w = Some spreadsheet_id ->
  spreadsheet_id <> [] ->
  get_message_content w h mid = Ok content ->
  save_image w h1 path content = Ok tt ->
  replies (since (length h) (snd (handle_image_message w ev h)))
  = match fst saving with
    | Ok _ =>
        REPLY_SAVED text
        :: match reply_message w (snd saving) tok (REPLY_SAVED text) with
           | Ok _ => []
           | Raise e => [REPLY_ERROR e]
           end
    | Raise e => [REPLY_ERROR e]
    end
  /\ fst saving
     = match sheets_auth w h3 with
       | Raise _ => Ok tt
       | Ok _ =>
           match append_execute w (h3 ++ [EvSheetsAuth]) spreadsheet_id
                   RANGE_NAME values with
           | Ok _ => Ok tt
           | Raise e =>
               let line :=
                 lit "スプレッドシートへの保存中にエラーが発生しました: "
                 ++ str_of_exn e in
               if has_surrogate line
               then Raise (unicode_encode_error line)
               else Ok tt
           end
       end.
Proof.
  intros mid tok h1 path h2 text h3 values saving Hid Hne Hget Hsave.
  rewrite handle_image_message_events, since_app. unfold handler_events.
  cbv zeta. fold mid tok. rewrite Hget. fold h1 path. rewrite Hsave.
  fold h2 text h3. rewrite Hid.
  destruct spreadsheet_id as [|c id]; [easy|].
  subst saving. rewrite save_to_spreadsheet_run. cbn [fst snd]. split.
  - autorewrite with trace. cbn [replies app].
    destruct (save_result w (VStr text) (c :: id) RANGE_NAME h3) as [[]|u];
      [apply replies_replying | reflexivity].
  - rewrite save_result_cases. cbv zeta.
    now rewrite table_of_str_plain.
Qed.

Lemma success_reply_despite_failures_witness :
  let w := Sample.no_credentials in
  let tok := lit "token-1" in
  let h1 := [EvGetMessageContent (lit "msg-1")] in
  let path := lit "images/0b6f.jpg" in
  let content := [[255; 216]%N] in
  let text := [97; 9; 98; 10; 99]%N in
  let h3 := [EvGetMessageContent (lit "msg-1"); EvSaveImage path content;
             EvVision path] in
  let saving := save_to_spreadsheet w (VStr text) (lit "sheet-1") RANGE_NAME h3 in
  (getenv_SPREADSHEET_ID w = Some (lit "sheet-1")
   /\ lit "sheet-1" <> []
   /\ get_message_content w [] (lit "msg-1") = Ok content
   /\ save_image w h1 path content = Ok tt)
  /\ replies (since 0 (snd (handle_image_message w Sample.ev0 [])))
     = [REPLY_SAVED text]
  /\ fst saving = Ok tt.
Proof.
  cbv zeta. split.
  - split; [reflexivity|]. split; [discriminate|]. split; reflexivity.
  - apply (success_reply_despite_failures Sample.no_credentials Sample.ev0 []
             (lit "sheet-1") [[255; 216]%N]);
      [reflexivity | discriminate | reflexivity | reflexivity].
Defined.

(** X15.  A failure of the vision API is stored as if it were text: with a
    spreadsheet id and a service object, the rows sent to the spreadsheet
    are the rows of the error message. *)
Theorem vision_error_is_stored_as_text (w : world) (ev : message_event)
    (h : history) (content : list (list N)) (e : exn) :
  let mid := message_id ev in
  let h1 := h ++ [EvGetMessageContent mid] in
  let path := path_join SAVE_DIR (uuid4 w h1 ++ lit ".jpg") in
  let h2 := h1 ++ [EvSaveImage path content] in
  let h3 := h2 ++ [EvVision path] in
  let message := lit "エラーが発生しました: " ++ str_of_exn e in
  configured w = true ->
  get_message_content w h mid = Ok content ->
  save_image w h1 path content = Ok tt ->
  generate_content w h2 path = Raise e ->
  sheets_auth w h3 = Ok tt ->
  appended (since (length h) (snd (handle_image_message w ev h)))
  = [sheet_values (now_strftime w (h3 ++ [EvSheetsAuth]))
       (map (map VStr) (table_direct message))].
Proof.
  intros mid h1 path h2 h3 message Hc Hget Hsave Hgen Hauth.
  rewrite handle_image_message_events, since_app. unfold handler_events.
  cbv zeta. fold mid. rewrite Hget. fold h1 path. rewrite Hsave.
  fold h2. rewrite Hgen. cbn [extracted]. fold message h3.
  unfold configured in Hc.
  destruct (getenv_SPREADSHEET_ID w) as [[|c id]|]; try discriminate Hc.
  rewrite !appended_app, appended_save_events, Hauth.
  rewrite table_of_str, table_log_str, app_nil_r. cbn [appended app].
  destruct (save_result w (VStr message) (c :: id) RANGE_NAME h3) as [[]|u];
    [|reflexivity].
  unfold replying.
  now destruct (reply_message w _ (reply_token ev) (REPLY_SAVED message)).
Qed.

Lemma vision_error_is_stored_as_text_witness :
  let w := MoreSamples.vision_down in
  let e := Exn OtherError (lit "429 quota exceeded") in
  let path := lit "images/0b6f.jpg" in
  let h1 := [EvGetMessageContent (lit "msg-1")] in
  let h2 := h1 ++ [EvSaveImage path [[255; 216]%N]] in
  let h3 := h2 ++ [EvVision path] in
  (configured w = true
   /\ get_message_content w [] (lit "msg-1") = Ok [[255; 216]%N]
   /\ save_image w h1 path [[255; 216]%N] = Ok tt
   /\ generate_content w h2 path = Raise e
   /\ sheets_auth w h3 = Ok tt)
  /\ appended (since 0 (snd (handle_image_message w Sample.ev0 [])))
     = [[[VStr (lit "日時"); VStr (lit "列1")];
         [VStr (lit "2024-05-01 09:30:00");
          VStr (lit "エラーが発生しました: 429 quota exceeded")]]].
Proof.
  cbv zeta. split; [repeat split|].
  apply (vision_error_is_stored_as_text MoreSamples.vision_down Sample.ev0 []
           [[255; 216]%N] (Exn OtherError (lit "429 quota exceeded")));
    reflexivity.
Defined.

Lemma dispatch_no_image w events : forall h,
  forallb (fun ev => negb (is_image_event ev)) events = true ->
  dispatch w events h = (Ok tt, h).
Proof.
  induction events as [|[ev|] rest IH]; intros h H; cbn [dispatch].
  - reflexivity.
  - discriminate H.
  - apply IH. exact H.
Qed.

(** X16.  A request whose signature fits and whose payload holds no image
    message is answered ['OK'] after the body is logged, and nothing
    else happens: no download, no file, no reply. *)
Theorem callback_ignores_other_events (w : world) (req : request)
    (h : history) (signature : str) (events : list webhook_event) :
  header_signature req = Some signature ->
  validate_signature w (data req) signature = true ->
  parse_payload w (data req) = Ok events ->
  forallb (fun ev => negb (is_image_event ev)) events = true ->
  callback w req h
  = (Ok (lit "OK"), h ++ [EvLog (lit "Request body: " ++ data req)]).
Proof.
  intros Hs Hv Hp He. unfold callback, headers_signature, handler_handle.
  rewrite Hs. run_calls. rewrite Hv, Hp.
  now rewrite (dispatch_no_image w events _ He).
Qed.

Lemma callback_ignores_other_events_witness :
  let w := MoreSamples.no_image in
  let signature := lit "c2lnbmF0dXJl" in
  (header_signature Sample.req0 = Some signature
   /\ validate_signature w (data Sample.req0) signature = true
   /\ parse_payload w (data Sample.req0) = Ok [OtherEvent; OtherEvent]
   /\ forallb (fun ev => negb (is_image_event ev)) [OtherEvent; OtherEvent] = true)
  /\ callback w Sample.req0 []
     = (Ok (lit "OK"), [EvLog (lit "Request body: payload-1")]).
Proof.
  cbv zeta. split; [repeat split|].
  apply (callback_ignores_other_events MoreSamples.no_image Sample.req0 []
           (lit "c2lnbmF0dXJl") [OtherEvent; OtherEvent]); reflexivity.
Defined.

